(** * AIHyperXScan: the HyperSync derivation layer

    A shallow embedding of [src/app/api/chat/tools/hypersyncHelper.ts]
    (class [HypersyncHelper]) and of [serializeBigInts] from
    [src/app/api/chat/tools/index.ts], with the properties the
    specification states about them.

    Conventions of the embedding:
    - a JavaScript [bigint] is a [Z];
    - a JavaScript string is a [string], one character per code unit
      (hex payloads, addresses and topic hashes are ASCII);
    - a [Map] that the code enumerates is an association list in
      insertion order ([JsMap]); the [clients] map, which is only looked
      up, is a [gmap];
    - a [throw] is the left injection of [Throws]; the static fields of
      the class are threaded through the [Helper] monad. *)

From Stdlib Require Import ZArith String Ascii List Lia.
From Stdlib Require Import DecimalString DecimalPos DecimalZ.
From stdpp Require Import gmap strings list.

Local Open Scope Z_scope.
Local Open Scope string_scope.
Local Open Scope list_scope.

(** ** Errors and the exception monad *)

Inductive Error : Type :=
| ChainNotSupported (chainId : Z)
    (* Error(`Chain ID ${chainId} is not supported`) *)
| ClientNotInitialized (chainId : Z)
    (* Error(`Client for chain ID ${chainId} not initialized`) *)
| TypeError
    (* reading a property of null/undefined, mixing bigint with another type *)
| SyntaxError
    (* BigInt(...) on a string that is not a numeric literal *)
| InvalidArgument
    (* ethers: invalid BytesLike value / padding exceeds data length *)
| ServiceFailure (message : string)
    (* a rejected request of the query service or of the decoder *)
| MetadataFetchFailed (cause : Error).
    (* Error(`Failed to fetch token metadata: ${error.message}`) *)

Definition Throws (A : Type) : Type := Error + A.

Definition throw {A} (e : Error) : Throws A := inl e.
Definition ok {A} (a : A) : Throws A := inr a.

Definition tbind {A B} (c : Throws A) (k : A -> Throws B) : Throws B :=
  match c with
  | inl e => inl e
  | inr a => k a
  end.

Notation "'let!' x := c 'in' k" := (tbind c (fun x => k))
  (at level 10, x name, c at level 200, k at level 200).

(** [for (const x of xs) { acc = step(acc, x) }] where [step] may throw. *)
Fixpoint for_of {A S} (step : S -> A -> Throws S) (acc : S) (xs : list A)
  : Throws S :=
  match xs with
  | [] => ok acc
  | x :: xs' => let! acc' := step acc x in for_of step acc' xs'
  end.

(** [xs.map(f)] where the callback may throw. *)
Section ArrayMap.
Context {A B : Type} (f : A -> Throws B).

Fixpoint array_map (xs : list A) : Throws (list B) :=
  match xs with
  | [] => ok []
  | x :: xs' => let! y := f x in let! ys := array_map xs' in ok (y :: ys)
  end.
End ArrayMap.

(** ** JavaScript values carried by decoded events *)

(** The values found in the [body] array of a decoded event.  The
    decoder is an external library; the universe covers what the code
    does with a body item: read its [val] property, convert it to a
    string, or store it as it is. *)
Inductive JsValue : Type :=
| JsUndefined
| JsBigInt (z : Z)
| JsString (s : string)
| JsBoolean (b : bool)
| JsObject (val : JsValue).  (* a plain object with a [val] property *)

(** [BigInt.prototype.toString()]: decimal digits, a leading minus sign
    for negative values. *)
Definition BigInt_toString (z : Z) : string :=
  NilZero.string_of_int (Z.to_int z).

(** String conversion as a template literal performs it. *)
Definition ToString (v : JsValue) : string :=
  match v with
  | JsUndefined => "undefined"
  | JsBigInt z => BigInt_toString z
  | JsString s => s
  | JsBoolean true => "true"
  | JsBoolean false => "false"
  | JsObject _ => "[object Object]"
  end.

(** [v.toString()]: a method call, so [undefined] throws. *)
Definition toString_method (v : JsValue) : Throws string :=
  match v with
  | JsUndefined => throw TypeError
  | _ => ok (ToString v)
  end.

(** [v.val]: reading a property of [undefined] throws; a primitive has
    no such property. *)
Definition get_val (v : JsValue) : Throws JsValue :=
  match v with
  | JsUndefined => throw TypeError
  | JsObject val => ok val
  | _ => ok JsUndefined
  end.

(** [acc + amount] with [acc : bigint].  The source declares [amount] as
    [bigint]; JavaScript throws a TypeError when a bigint meets
    [undefined] or a boolean.  A string or object operand, which
    JavaScript would concatenate, is outside the declared type and is
    rejected here as well. *)
Definition bigint_add (acc : Z) (amount : JsValue) : Throws Z :=
  match amount with
  | JsBigInt a => ok (acc + a)
  | _ => throw TypeError
  end.

(** ** Insertion-ordered maps ([Map<string, V>]) *)

Definition JsMap (V : Type) : Type := list (string * V).

Fixpoint map_get {V} (m : JsMap V) (k : string) : option V :=
  match m with
  | [] => None
  | (k', v) :: m' => if String.eqb k' k then Some v else map_get m' k
  end.

(** [m.set(k, v)]: an existing key keeps its position, a new key goes
    to the end. *)
Fixpoint map_set {V} (m : JsMap V) (k : string) (v : V) : JsMap V :=
  match m with
  | [] => [(k, v)]
  | (k', v') :: m' =>
      if String.eqb k' k then (k', v) :: m' else (k', v') :: map_set m' k v
  end.

Definition map_keys {V} (m : JsMap V) : list string := map fst m.
Definition map_values {V} (m : JsMap V) : list V := map snd m.

(** ** Decoded events *)

Record DecodedEvent : Type := {
  address : string;
  topic0 : string;
  body : list JsValue;
  transactionHash : string;
  blockNumber : Z;
  timestamp : Z
}.

(** [log.body[i]]: [undefined] past the end of the array. *)
Definition body_at (log : DecodedEvent) (i : nat) : JsValue :=
  match body log !! i with
  | Some v => v
  | None => JsUndefined
  end.

(** ** Event catalog *)

Definition ERC20_TRANSFER_TOPIC : string :=
  "0xddf252ad1be2c89b69c2b068fc378daa952ba7f163c4a11628f55a4df523b3ef".
Definition ERC721_TRANSFER_TOPIC : string :=
  "0xddf252ad1be2c89b69c2b068fc378daa952ba7f163c4a11628f55a4df523b3ef".
Definition ERC1155_TRANSFER_SINGLE_TOPIC : string :=
  "0xc3d58168c5ae7397731d063d5bbf3d657854427343f4c083240f7aacaa2d0f62".
Definition ERC1155_TRANSFER_BATCH_TOPIC : string :=
  "0x4a39dc06d4c0dbc64b70af90fd698a233a518aa5d07e595d983b8c0526c8f7fb".

(** ** getTokenBalances: the aggregation loop *)

Record TokenBalance : Type := {
  token : string;
  balance : Z
}.

(** One iteration of [for (const log of decodedLogs)]; [None] is the
    decoder's [null]. *)
Definition tokenBalances_step (balances : JsMap Z) (log : option DecodedEvent)
  : Throws (JsMap Z) :=
  match log with
  | None => ok balances                               (* if (!log) continue *)
  | Some log =>
      let token := address log in
      let! amount := get_val (body_at log 0) in
      let current :=
        match map_get balances token with
        | Some b => if Z.eqb b 0 then 0 else b          (* get(token) || 0n *)
        | None => 0
        end in
      let! total := bigint_add current amount in
      ok (map_set balances token total)
  end.

Definition tokenBalances_of (decodedLogs : list (option DecodedEvent))
  : Throws (list TokenBalance) :=
  let! balances := for_of tokenBalances_step [] decodedLogs in
  ok (map (fun '(token, balance) => {| token := token; balance := balance |})
          balances).

(** ** getNFTBalances: the ownership loop *)

Inductive NFTStandard : Type := ERC721 | ERC1155.

(** [balance] is declared [bigint]; the ERC1155 branch stores
    [log.body[1]] as it is, so the field holds a [JsValue]. *)
Record NFTBalance : Type := {
  contractAddress : string;
  tokenId : string;
  standard : NFTStandard;
  nft_balance : JsValue
}.

(** The key of the [nftBalances] map: [`${log.address}-${log.body[0]}`]. *)
Definition nft_key (log : DecodedEvent) : string :=
  address log +:+ "-" +:+ ToString (body_at log 0).

Definition nftBalances_step (nftBalances : JsMap NFTBalance)
    (log : option DecodedEvent) : Throws (JsMap NFTBalance) :=
  match log with
  | None => ok nftBalances                            (* if (!log) continue *)
  | Some log =>
      if String.eqb (topic0 log) ERC721_TRANSFER_TOPIC then
        let key := nft_key log in
        let! id := toString_method (body_at log 0) in
        ok (map_set nftBalances key
              {| contractAddress := address log;
                 tokenId := id;
                 standard := ERC721;
                 nft_balance := JsBigInt 1 |})
      else if String.eqb (topic0 log) ERC1155_TRANSFER_SINGLE_TOPIC then
        let key := nft_key log in
        let! id := toString_method (body_at log 0) in
        ok (map_set nftBalances key
              {| contractAddress := address log;
                 tokenId := id;
                 standard := ERC1155;
                 nft_balance := body_at log 1 |})
      else ok nftBalances
  end.

Definition nftBalances_of (decodedLogs : list (option DecodedEvent))
  : Throws (list NFTBalance) :=
  let! nftBalances := for_of nftBalances_step [] decodedLogs in
  ok (map_values nftBalances).

(** ** getDexSwaps: the projection of the decoded logs *)

Record DexSwap : Type := {
  swap_transactionHash : string;
  swap_blockNumber : Z;
  swap_timestamp : Z;
  tokenIn : string;
  tokenOut : string;
  amountIn : Z;
  amountOut : Z;
  sender : string;
  recipient : string
}.

(** [decodedLogs.map(log => ({ transactionHash: log.transactionHash, ... }))]:
    the callback reads properties of [log] without testing it. *)
Definition dexSwap_of (log : option DecodedEvent) : Throws DexSwap :=
  match log with
  | None => throw TypeError
  | Some log =>
      ok {| swap_transactionHash := transactionHash log;
            swap_blockNumber := blockNumber log;
            swap_timestamp := timestamp log;
            tokenIn := address log;
            tokenOut := address log;
            amountIn := 0;
            amountOut := 0;
            sender := "0x";
            recipient := "0x" |}
  end.

Definition dexSwaps_of (decodedLogs : list (option DecodedEvent))
  : Throws (list DexSwap) :=
  array_map dexSwap_of decodedLogs.

(** ** Chain registry *)

Record ChainConfig : Type := {
  name : string;
  url : string;
  supportsTraces : bool
}.

Definition SUPPORTED_CHAINS : gmap Z ChainConfig :=
  list_to_map [
    (1, {| name := "Ethereum Mainnet"; url := "https://eth.hypersync.xyz"; supportsTraces := true |});
    (10, {| name := "Optimism"; url := "https://optimism.hypersync.xyz"; supportsTraces := false |});
    (14, {| name := "Flare"; url := "https://flare.hypersync.xyz"; supportsTraces := false |});
    (30, {| name := "Rootstock"; url := "https://rootstock.hypersync.xyz"; supportsTraces := false |});
    (42, {| name := "Lukso"; url := "https://lukso.hypersync.xyz"; supportsTraces := false |});
    (44, {| name := "Crab"; url := "https://crab.hypersync.xyz"; supportsTraces := false |});
    (46, {| name := "Darwinia"; url := "https://darwinia.hypersync.xyz"; supportsTraces := true |});
    (56, {| name := "BSC"; url := "https://bsc.hypersync.xyz"; supportsTraces := false |});
    (97, {| name := "BSC Testnet"; url := "https://bsc-testnet.hypersync.xyz"; supportsTraces := false |});
    (100, {| name := "Gnosis"; url := "https://gnosis.hypersync.xyz"; supportsTraces := false |});
    (130, {| name := "Unichain"; url := "https://unichain.hypersync.xyz"; supportsTraces := false |});
    (137, {| name := "Polygon"; url := "https://polygon.hypersync.xyz"; supportsTraces := false |});
    (148, {| name := "Shimmer EVM"; url := "https://shimmer-evm.hypersync.xyz"; supportsTraces := false |});
    (169, {| name := "Manta"; url := "https://manta.hypersync.xyz"; supportsTraces := false |});
    (204, {| name := "opBNB"; url := "https://opbnb.hypersync.xyz"; supportsTraces := false |});
    (250, {| name := "Fantom"; url := "https://fantom.hypersync.xyz"; supportsTraces := false |});
    (252, {| name := "Fraxtal"; url := "https://fraxtal.hypersync.xyz"; supportsTraces := false |});
    (255, {| name := "Kroma"; url := "https://kroma.hypersync.xyz"; supportsTraces := false |});
    (288, {| name := "Boba"; url := "https://boba.hypersync.xyz"; supportsTraces := false |});
    (324, {| name := "ZKSync"; url := "https://zksync.hypersync.xyz"; supportsTraces := false |});
    (1088, {| name := "Metis"; url := "https://metis.hypersync.xyz"; supportsTraces := false |});
    (1101, {| name := "Polygon zkEVM"; url := "https://polygon-zkevm.hypersync.xyz"; supportsTraces := false |});
    (1135, {| name := "Lisk"; url := "https://lisk.hypersync.xyz"; supportsTraces := false |});
    (1284, {| name := "Moonbeam"; url := "https://moonbeam.hypersync.xyz"; supportsTraces := false |});
    (1287, {| name := "Moonbase Alpha"; url := "https://moonbase-alpha.hypersync.xyz"; supportsTraces := false |});
    (1301, {| name := "Unichain Sepolia"; url := "https://unichain-sepolia.hypersync.xyz"; supportsTraces := false |});
    (1750, {| name := "Metall2"; url := "https://metall2.hypersync.xyz"; supportsTraces := false |});
    (1868, {| name := "Soneium"; url := "https://soneium.hypersync.xyz"; supportsTraces := false |});
    (2818, {| name := "Morph"; url := "https://morph.hypersync.xyz"; supportsTraces := false |});
    (4200, {| name := "Merlin"; url := "https://merlin.hypersync.xyz"; supportsTraces := false |});
    (4201, {| name := "Lukso Testnet"; url := "https://lukso-testnet.hypersync.xyz"; supportsTraces := false |});
    (5000, {| name := "Mantle"; url := "https://mantle.hypersync.xyz"; supportsTraces := false |});
    (5115, {| name := "Citrea Testnet"; url := "https://citrea-testnet.hypersync.xyz"; supportsTraces := false |});
    (7000, {| name := "Zeta"; url := "https://zeta.hypersync.xyz"; supportsTraces := false |});
    (7560, {| name := "Cyber"; url := "https://cyber.hypersync.xyz"; supportsTraces := false |});
    (8453, {| name := "Base"; url := "https://base.hypersync.xyz"; supportsTraces := false |});
    (8888, {| name := "Chiliz"; url := "https://chiliz.hypersync.xyz"; supportsTraces := false |});
    (10143, {| name := "Monad Testnet"; url := "https://monad-testnet.hypersync.xyz"; supportsTraces := false |});
    (10200, {| name := "Gnosis Chiado"; url := "https://gnosis-chiado.hypersync.xyz"; supportsTraces := false |});
    (11155111, {| name := "Sepolia"; url := "https://sepolia.hypersync.xyz"; supportsTraces := false |});
    (11155420, {| name := "Optimism Sepolia"; url := "https://optimism-sepolia.hypersync.xyz"; supportsTraces := false |});
    (17000, {| name := "Holesky"; url := "https://holesky.hypersync.xyz"; supportsTraces := false |});
    (17864, {| name := "MEV Commit"; url := "https://mev-commit.hypersync.xyz"; supportsTraces := false |});
    (34443, {| name := "Mode"; url := "https://mode.hypersync.xyz"; supportsTraces := false |});
    (42161, {| name := "Arbitrum"; url := "https://arbitrum.hypersync.xyz"; supportsTraces := false |});
    (42170, {| name := "Arbitrum Nova"; url := "https://arbitrum-nova.hypersync.xyz"; supportsTraces := false |});
    (42220, {| name := "Celo"; url := "https://celo.hypersync.xyz"; supportsTraces := false |});
    (43114, {| name := "Avalanche"; url := "https://avalanche.hypersync.xyz"; supportsTraces := false |});
    (43113, {| name := "Fuji"; url := "https://fuji.hypersync.xyz"; supportsTraces := false |});
    (48900, {| name := "Zircuit"; url := "https://zircuit.hypersync.xyz"; supportsTraces := false |});
    (50104, {| name := "Sophon"; url := "https://sophon.hypersync.xyz"; supportsTraces := false |});
    (57073, {| name := "Ink"; url := "https://ink.hypersync.xyz"; supportsTraces := false |});
    (59144, {| name := "Linea"; url := "https://linea.hypersync.xyz"; supportsTraces := false |});
    (80002, {| name := "Polygon Amoy"; url := "https://polygon-amoy.hypersync.xyz"; supportsTraces := false |});
    (80084, {| name := "Berachain Bartio"; url := "https://berachain-bartio.hypersync.xyz"; supportsTraces := false |});
    (80094, {| name := "Berachain"; url := "https://berachain.hypersync.xyz"; supportsTraces := false |});
    (81457, {| name := "Blast"; url := "https://blast.hypersync.xyz"; supportsTraces := false |});
    (84532, {| name := "Base Sepolia"; url := "https://base-sepolia.hypersync.xyz"; supportsTraces := false |});
    (168587773, {| name := "Blast Sepolia"; url := "https://blast-sepolia.hypersync.xyz"; supportsTraces := false |});
    (283027429, {| name := "Extrabud"; url := "https://extrabud.hypersync.xyz"; supportsTraces := false |});
    (421614, {| name := "Arbitrum Sepolia"; url := "https://arbitrum-sepolia.hypersync.xyz"; supportsTraces := false |});
    (531050104, {| name := "Sophon Testnet"; url := "https://sophon-testnet.hypersync.xyz"; supportsTraces := false |});
    (534352, {| name := "Scroll"; url := "https://scroll.hypersync.xyz"; supportsTraces := false |});
    (696969, {| name := "Galadriel Devnet"; url := "https://galadriel-devnet.hypersync.xyz"; supportsTraces := false |});
    (1313161554, {| name := "Aurora"; url := "https://aurora.hypersync.xyz"; supportsTraces := false |});
    (1666600000, {| name := "Harmony Shard 0"; url := "https://harmony-shard-0.hypersync.xyz"; supportsTraces := false |});
    (7225878, {| name := "Saakuru"; url := "https://saakuru.hypersync.xyz"; supportsTraces := false |});
    (7777777, {| name := "Zora"; url := "https://zora.hypersync.xyz"; supportsTraces := false |})
  ].

(** Objects built by [HypersyncClient.new] and [Decoder.fromSignatures]
    carry the rank of their construction, which tells two handles
    apart. *)
Record HypersyncClient : Type := {
  client_id : nat;
  client_url : string;
  bearerToken : string
}.

Record Decoder : Type := {
  decoder_id : nat;
  signatures : list string
}.

(** The static fields of [HypersyncHelper], the environment variable it
    reads, and the number of objects constructed so far. *)
Record Statics : Type := {
  clients : gmap Z HypersyncClient;
  decoder : option Decoder;
  HYPERSYNC_API_KEY : option string;
  constructed : nat
}.

(** The class as loaded: an empty map and no decoder. *)
Definition loaded (api_key : option string) : Statics :=
  {| clients := ∅; decoder := None;
     HYPERSYNC_API_KEY := api_key; constructed := 0 |}.

Definition Helper (A : Type) : Type := Statics -> Throws A * Statics.

Definition hret {A} (a : A) : Helper A := fun st => (ok a, st).
Definition hthrow {A} (e : Error) : Helper A := fun st => (throw e, st).
Definition hlift {A} (c : Throws A) : Helper A := fun st => (c, st).

Definition hbind {A B} (c : Helper A) (k : A -> Helper B) : Helper B :=
  fun st =>
    match c st with
    | (inl e, st') => (inl e, st')
    | (inr a, st') => k a st'
    end.

Notation "'let*' x := c 'in' k" := (hbind c (fun x => k))
  (at level 10, x name, c at level 200, k at level 200).

Definition EVENT_SIGNATURES : list string := [
  "Transfer(address indexed from, address indexed to, uint256 amount)";
  "Transfer(address indexed from, address indexed to, uint256 indexed tokenId)";
  "TransferSingle(address indexed operator, address indexed from, address indexed to, uint256 id, uint256 value)";
  "TransferBatch(address indexed operator, address indexed from, address indexed to, uint256[] ids, uint256[] values)";
  "Approval(address indexed owner, address indexed spender, uint256 value)";
  "ApprovalForAll(address indexed owner, address indexed operator, bool approved)"
].

(** [process.env.HYPERSYNC_API_KEY || "your_api_key"] *)
Definition api_key_or_default (st : Statics) : string :=
  match HYPERSYNC_API_KEY st with
  | Some key => if String.eqb key "" then "your_api_key" else key
  | None => "your_api_key"
  end.

Definition initialize (chainId : Z) : Helper unit := fun st =>
  match SUPPORTED_CHAINS !! chainId with
  | None => (throw (ChainNotSupported chainId), st)
  | Some config =>
      match clients st !! chainId with
      | Some _ => (ok tt, st)
      | None =>
          let client :=
            {| client_id := constructed st;
               client_url := url config;
               bearerToken := api_key_or_default st |} in
          let st1 :=
            {| clients := <[chainId := client]> (clients st);
               decoder := decoder st;
               HYPERSYNC_API_KEY := HYPERSYNC_API_KEY st;
               constructed := S (constructed st) |} in
          match decoder st1 with
          | Some _ => (ok tt, st1)
          | None =>
              (ok tt,
               {| clients := clients st1;
                  decoder := Some {| decoder_id := constructed st1;
                                     signatures := EVENT_SIGNATURES |};
                  HYPERSYNC_API_KEY := HYPERSYNC_API_KEY st1;
                  constructed := S (constructed st1) |})
          end
      end
  end.

Definition getClient (chainId : Z) : Helper HypersyncClient := fun st =>
  match clients st !! chainId with
  | Some client => (ok client, st)
  | None => (throw (ClientNotInitialized chainId), st)
  end.

(** [this.decoder] used as an object: [undefined] has no methods. *)
Definition getDecoder : Helper Decoder := fun st =>
  match decoder st with
  | Some d => (ok d, st)
  | None => (throw TypeError, st)
  end.

Definition getSupportedChains : gmap Z ChainConfig := SUPPORTED_CHAINS.

(** ** String primitives *)

Definition is_upper (c : ascii) : bool :=
  (nat_of_ascii "A" <=? nat_of_ascii c)%nat && (nat_of_ascii c <=? nat_of_ascii "Z")%nat.

(** [String.prototype.toLowerCase] on the ASCII letters. *)
Definition lower_char (c : ascii) : ascii :=
  if is_upper c then ascii_of_nat (nat_of_ascii c + 32) else c.

Fixpoint toLowerCase (s : string) : string :=
  match s with
  | EmptyString => EmptyString
  | String c s' => String (lower_char c) (toLowerCase s')
  end.

(** The value of a hexadecimal digit, either case. *)
Definition hex_digit (c : ascii) : option Z :=
  let n := nat_of_ascii c in
  if (48 <=? n)%nat && (n <=? 57)%nat then Some (Z.of_nat (n - 48))
  else if (97 <=? n)%nat && (n <=? 102)%nat then Some (Z.of_nat (n - 87))
  else if (65 <=? n)%nat && (n <=? 70)%nat then Some (Z.of_nat (n - 55))
  else None.

Definition is_hex_digit (c : ascii) : bool :=
  match hex_digit c with Some _ => true | None => false end.

Fixpoint all_hex (s : string) : bool :=
  match s with
  | EmptyString => true
  | String c s' => is_hex_digit c && all_hex s'
  end.

Fixpoint zeros (n : nat) : string :=
  match n with
  | O => EmptyString
  | S n' => String "0" (zeros n')
  end.

(** [s.slice(start, end)]: negative indices count from the end, both
    are clamped to the string. *)
Definition slice (s : string) (start stop : Z) : string :=
  let len := Z.of_nat (String.length s) in
  let clamp (i : Z) := if (i <? 0)%Z then Z.max (len + i) 0 else Z.min i len in
  let from := clamp start in
  let to := clamp stop in
  substring (Z.to_nat from) (Z.to_nat (to - from)) s.

(** [s.slice(start)] *)
Definition slice_from (s : string) (start : Z) : string :=
  slice s start (Z.of_nat (String.length s)).

(** ** ethers.zeroPadValue

    The library is a dependency of the repository.  Its [zeroPadValue]
    accepts a string matching [/^0x(?:[0-9a-f][0-9a-f])*$/i], rejects
    data longer than [length] bytes, and returns the bytes left-padded
    with zeros as lowercase hex. *)
Definition zeroPadValue (data : string) (length : nat) : Throws string :=
  match data with
  | String "0" (String x digits) =>
      if (Ascii.eqb x "x" || Ascii.eqb x "X")
         && all_hex digits && Nat.even (String.length digits)
      then
        let bytes := Nat.div (String.length digits) 2 in
        if (bytes <=? length)%nat
        then ok ("0x" +:+ zeros (2 * (length - bytes)) +:+ toLowerCase digits)
        else throw InvalidArgument
      else throw InvalidArgument
  | _ => throw InvalidArgument
  end.

(** ** Numbers read from hex payloads *)

(** A JavaScript number as far as the decoder needs it: [NaN] or an
    integer value.  (A double holds integers exactly up to 2^53; the
    model keeps the integer itself.) *)
Inductive JsNumber : Type :=
| NaN
| Num (n : Z).

(** The longest prefix of hexadecimal digits of [s], read as a number,
    with the count of digits read. *)
Fixpoint hex_prefix (s : string) (acc : Z) (count : nat) : Z * nat :=
  match s with
  | EmptyString => (acc, count)
  | String c s' =>
      match hex_digit c with
      | Some d => hex_prefix s' (16 * acc + d) (S count)
      | None => (acc, count)
      end
  end.

Definition is_space (c : ascii) : bool :=
  let n := nat_of_ascii c in
  ((9 <=? n)%nat && (n <=? 13)%nat) || (n =? 32)%nat || (n =? 160)%nat.

Fixpoint trim_start (s : string) : string :=
  match s with
  | String c s' => if is_space c then trim_start s' else s
  | EmptyString => EmptyString
  end.

Definition strip_0x (s : string) : string :=
  match s with
  | String "0" (String x s') =>
      if Ascii.eqb x "x" || Ascii.eqb x "X" then s' else s
  | _ => s
  end.

(** [parseInt(s, 16)]: leading white space, a sign, an optional [0x],
    then as many hex digits as there are; [NaN] when there is none. *)
Definition parseInt16 (s : string) : JsNumber :=
  let s := trim_start s in
  let '(negative, s) :=
    match s with
    | String "-" s' => (true, s')
    | String "+" s' => (false, s')
    | _ => (false, s)
    end in
  let '(n, count) := hex_prefix (strip_0x s) 0 0 in
  match count with
  | O => NaN
  | _ => Num (if negative then - n else n)
  end.

Fixpoint trim_end (s : string) : string :=
  match s with
  | EmptyString => EmptyString
  | String c s' =>
      match trim_end s' with
      | EmptyString => if is_space c then EmptyString else String c EmptyString
      | t => String c t
      end
  end.

(** [BigInt('0x' + digits)]: trailing white space is dropped, then at
    least one digit is required and every character must be a hex
    digit. *)
Definition BigInt_0x (digits : string) : Throws Z :=
  let digits := trim_end digits in
  match digits with
  | EmptyString => throw SyntaxError
  | _ => if all_hex digits then ok (fst (hex_prefix digits 0 0))
         else throw SyntaxError
  end.

(** [Buffer.from(s, 'hex')]: pairs of hex digits, up to the first pair
    that is not one; a trailing single character is dropped. *)
Fixpoint Buffer_from_hex (s : string) : list ascii :=
  match s with
  | String a (String b s') =>
      match hex_digit a, hex_digit b with
      | Some hi, Some lo =>
          ascii_of_nat (Z.to_nat (16 * hi + lo)) :: Buffer_from_hex s'
      | _, _ => []
      end
  | _ => []
  end.

(** [buffer.toString('utf8')].  Strings are kept as their UTF-8 bytes,
    so well-formed input is returned as it is (Node replaces ill-formed
    sequences by U+FFFD; the model does not). *)
Definition Buffer_toString_utf8 (bytes : list ascii) : string :=
  string_of_list_ascii bytes.

(** ** Queries *)

Inductive LogField : Type :=
| LogField_Address | LogField_Data | LogField_Topic0 | LogField_Topic1
| LogField_Topic2 | LogField_BlockNumber.
Inductive BlockField : Type := BlockField_Timestamp | BlockField_Number.
Inductive TransactionField : Type :=
| TransactionField_Input | TransactionField_To | TransactionField_Output
| TransactionField_Hash.

(** A column list, or [Object.values(...)] of the enumeration. *)
Inductive Columns (F : Type) : Type :=
| Listed (fields : list F)
| Object_values.
Arguments Listed {F} fields.
Arguments Object_values {F}.

Record FieldSelection : Type := {
  fs_log : option (Columns LogField);
  fs_block : option (Columns BlockField);
  fs_transaction : option (Columns TransactionField)
}.

(** A topic filter has one slot per topic position; [None] is the
    [null] that leaves the position unconstrained. *)
Record LogSelection : Type := {
  sel_address : option (list string);
  sel_topics : option (list (option (list string)))
}.

Record TransactionSelection : Type := {
  sel_to : option (list string);
  sel_input : option (list string)
}.

Record Query : Type := {
  fromBlock : Z;
  toBlock : option Z;
  fieldSelection : FieldSelection;
  logs : option (list LogSelection);
  transactions : option (list TransactionSelection)
}.

(** [fromBlock || 0] for the optional parameter [fromBlock?: number]. *)
Definition or_zero (n : option Z) : Z :=
  match n with
  | Some n => if Z.eqb n 0 then 0 else n
  | None => 0
  end.

(** The first statements of [getTokenBalances] after [initialize]: the
    padded address and the query. *)
Definition tokenBalances_query (walletAddress : string) (fromBlock : option Z)
  : Throws Query :=
  let! paddedAddress := zeroPadValue (toLowerCase walletAddress) 32 in
  ok {| fromBlock := or_zero fromBlock;
        toBlock := None;
        fieldSelection :=
          {| fs_log := Some (Listed [LogField_Address; LogField_Data;
                                     LogField_Topic0; LogField_Topic1;
                                     LogField_Topic2; LogField_BlockNumber]);
             fs_block := Some (Listed [BlockField_Timestamp]);
             fs_transaction := None |};
        logs := Some [ {| sel_address := None;
                          sel_topics := Some [ Some [ERC20_TRANSFER_TOPIC];
                                               None;
                                               Some [paddedAddress] ] |} ];
        transactions := None |}.

Definition nftBalances_query (walletAddress : string) (fromBlock : option Z)
  : Throws Query :=
  let! paddedAddress := zeroPadValue (toLowerCase walletAddress) 32 in
  ok {| fromBlock := or_zero fromBlock;
        toBlock := None;
        fieldSelection :=
          {| fs_log := Some Object_values;
             fs_block := Some (Listed [BlockField_Timestamp]);
             fs_transaction := None |};
        logs := Some [
          {| sel_address := None;
             sel_topics := Some [ Some [ERC721_TRANSFER_TOPIC];
                                  None;
                                  Some [paddedAddress] ] |};
          {| sel_address := None;
             sel_topics := Some [ Some [ERC1155_TRANSFER_SINGLE_TOPIC;
                                        ERC1155_TRANSFER_BATCH_TOPIC];
                                  None;
                                  Some [paddedAddress] ] |} ];
        transactions := None |}.

Definition SWAP_EVENT_SIGNATURES : list string := [
  "Swap(address indexed sender, uint256 amount0In, uint256 amount1In, uint256 amount0Out, uint256 amount1Out, address indexed to)";
  "Swap(address indexed sender, address indexed recipient, int256 amount0, int256 amount1, uint160 sqrtPriceX96, uint128 liquidity, int24 tick)"
].

Definition ERC20_INTERFACES : list (string * string) := [
  ("name", "0x06fdde03");
  ("symbol", "0x95d89b41");
  ("decimals", "0x313ce567");
  ("totalSupply", "0x18160ddd")
].

(** The query built for one entry of [ERC20_INTERFACES]. *)
Definition probe_query (tokenAddress selector : string) : Query :=
  {| fromBlock := 0;
     toBlock := Some 1;
     fieldSelection :=
       {| fs_log := None;
          fs_block := None;
          fs_transaction :=
            Some (Listed [TransactionField_Input; TransactionField_To;
                          TransactionField_Output]) |};
     logs := None;
     transactions := Some [ {| sel_to := Some [tokenAddress];
                               sel_input := Some [selector] |} ] |}.

Definition metadata_queries (tokenAddress : string) : list Query :=
  map (fun '(field, selector) => probe_query tokenAddress selector)
      ERC20_INTERFACES.

(** ** getTokenMetadata: decoding the probe responses *)

Record TokenMetadata : Type := {
  md_address : string;
  md_name : string;
  md_symbol : string;
  md_decimals : JsNumber;
  md_totalSupply : Z
}.

Definition default_metadata (tokenAddress : string) : TokenMetadata :=
  {| md_address := tokenAddress;
     md_name := "Unknown";
     md_symbol := "UNKNOWN";
     md_decimals := Num 18;
     md_totalSupply := 0 |}.

Definition set_name (value : string) (md : TokenMetadata) : TokenMetadata :=
  {| md_address := md_address md; md_name := value; md_symbol := md_symbol md;
     md_decimals := md_decimals md; md_totalSupply := md_totalSupply md |}.
Definition set_symbol (value : string) (md : TokenMetadata) : TokenMetadata :=
  {| md_address := md_address md; md_name := md_name md; md_symbol := value;
     md_decimals := md_decimals md; md_totalSupply := md_totalSupply md |}.
Definition set_decimals (value : JsNumber) (md : TokenMetadata) : TokenMetadata :=
  {| md_address := md_address md; md_name := md_name md;
     md_symbol := md_symbol md; md_decimals := value;
     md_totalSupply := md_totalSupply md |}.
Definition set_totalSupply (value : Z) (md : TokenMetadata) : TokenMetadata :=
  {| md_address := md_address md; md_name := md_name md;
     md_symbol := md_symbol md; md_decimals := md_decimals md;
     md_totalSupply := value |}.

(** The [case 'name': case 'symbol':] block of the switch. *)
Definition decode_string (cleanOutput : string) : string :=
  let length := parseInt16 (slice cleanOutput 64 128) in
  let stop := match length with
              | Num l => 128 + l * 2
              | NaN => 0                       (* a NaN index counts as 0 *)
              end in
  let stringData := slice cleanOutput 128 stop in
  Buffer_toString_utf8 (Buffer_from_hex stringData).

(** [switch (field) { ... }] inside the inner [try]. *)
Definition decode_field (field : option string) (cleanOutput : string)
    (md : TokenMetadata) : Throws TokenMetadata :=
  match field with
  | None => ok md
  | Some field =>
      if String.eqb field "name" || String.eqb field "symbol" then
        let value := decode_string cleanOutput in
        let md := if String.eqb field "name" then set_name value md else md in
        let md := if String.eqb field "symbol" then set_symbol value md else md in
        ok md
      else if String.eqb field "decimals" then
        ok (set_decimals (parseInt16 (slice cleanOutput 0 64)) md)
      else if String.eqb field "totalSupply" then
        let! total := BigInt_0x (slice cleanOutput 0 64) in
        ok (set_totalSupply total md)
      else ok md
  end.

(** [const [field] = key]: array destructuring of a string binds its
    first character ([undefined] for the empty string). *)
Definition destructure_first (key : string) : option string :=
  match key with
  | EmptyString => None
  | String c _ => Some (String c EmptyString)
  end.

Record Transaction : Type := {
  output : option string
}.

Section QueryService.

(** Raw log rows, the query service and the decoder are external. *)
Variable Log : Type.

Record QueryResponse : Type := {
  data_logs : list Log;
  data_transactions : option (list Transaction);
  archiveHeight : Z
}.

Variable get : HypersyncClient -> Query -> Throws QueryResponse.
Variable decodeLogs :
  Decoder -> list Log -> Throws (list (option DecodedEvent)).
Variable ethers_id : string -> string.

(** [response.data.transactions?.[0]?.output] *)
Definition first_output (response : QueryResponse) : option string :=
  match data_transactions response with
  | Some (tx :: _) => output tx
  | _ => None
  end.

(** The callback of [responses.forEach((response, index) => ...)]. *)
Definition process_response (md : TokenMetadata) (index : nat)
    (response : QueryResponse) : Throws TokenMetadata :=
  let! key :=
    match map fst ERC20_INTERFACES !! index with
    | Some key => ok key
    | None => throw TypeError           (* undefined is not iterable *)
    end in
  let field := destructure_first key in
  match first_output response with
  | None => ok md
  | Some output =>
      if negb (String.eqb output "") && negb (String.eqb output "0x") then
        let cleanOutput := slice_from output 2 in
        match decode_field field cleanOutput md with
        | inr md' => ok md'
        | inl _ => ok md                 (* catch: console.warn(...) *)
        end
      else ok md
  end.

Fixpoint forEach_indexed (md : TokenMetadata) (index : nat)
    (responses : list QueryResponse) : Throws TokenMetadata :=
  match responses with
  | [] => ok md
  | response :: rest =>
      let! md' := process_response md index response in
      forEach_indexed md' (S index) rest
  end.

(** The body of the outer [try].  [Promise.all] rejects as soon as one
    request does; the model reports the first failure in query
    order. *)
Definition probe (chainId : Z) (tokenAddress : string) (st : Statics)
  : Throws TokenMetadata :=
  let! responses :=
    array_map (fun query =>
                 let! client := fst (getClient chainId st) in
                 get client query)
              (metadata_queries tokenAddress) in
  forEach_indexed (default_metadata tokenAddress) 0 responses.

Definition getTokenMetadata (chainId : Z) (tokenAddress : string)
  : Helper TokenMetadata :=
  let* _ := initialize chainId in
  fun st =>
    match probe chainId tokenAddress st with
    | inr md => (ok md, st)
    | inl error => (throw (MetadataFetchFailed error), st)
    end.

Definition getTokenBalances (chainId : Z) (walletAddress : string)
    (fromBlock : option Z) : Helper (list TokenBalance) :=
  let* _ := initialize chainId in
  let* query := hlift (tokenBalances_query walletAddress fromBlock) in
  let* client := getClient chainId in
  let* response := hlift (get client query) in
  let* decoder := getDecoder in
  let* decodedLogs := hlift (decodeLogs decoder (data_logs response)) in
  hlift (tokenBalances_of decodedLogs).

Definition getNFTBalances (chainId : Z) (walletAddress : string)
    (fromBlock : option Z) : Helper (list NFTBalance) :=
  let* _ := initialize chainId in
  let* query := hlift (nftBalances_query walletAddress fromBlock) in
  let* client := getClient chainId in
  let* response := hlift (get client query) in
  let* decoder := getDecoder in
  let* decodedLogs := hlift (decodeLogs decoder (data_logs response)) in
  hlift (nftBalances_of decodedLogs).

Definition dexSwaps_query (dexAddress : string) (fromBlock toBlock : option Z)
  : Query :=
  let swapTopics := map ethers_id SWAP_EVENT_SIGNATURES in
  {| fromBlock := or_zero fromBlock;
     toBlock := toBlock;
     fieldSelection :=
       {| fs_log := Some Object_values;
          fs_block := Some (Listed [BlockField_Timestamp]);
          fs_transaction := Some (Listed [TransactionField_Hash]) |};
     logs := Some [ {| sel_address := Some [dexAddress];
                       sel_topics := Some [ Some swapTopics ] |} ];
     transactions := None |}.

Definition getDexSwaps (chainId : Z) (dexAddress : string)
    (fromBlock toBlock : option Z) (tokenAddress : option string)
  : Helper (list DexSwap) :=
  let* _ := initialize chainId in
  let query := dexSwaps_query dexAddress fromBlock toBlock in
  let* client := getClient chainId in
  let* response := hlift (get client query) in
  let* decoder := getDecoder in
  let* decodedLogs := hlift (decodeLogs decoder (data_logs response)) in
  hlift (dexSwaps_of decodedLogs).

End QueryService.

Arguments data_logs {Log}.
Arguments data_transactions {Log}.
Arguments archiveHeight {Log}.

(** ** serializeBigInts (index.ts) *)

(** The values [serializeBigInts] walks: bigints, arrays, objects (their
    own enumerable entries, in [Object.entries] order) and the remaining
    values, which it returns as they are. *)
Inductive Primitive : Type :=
| PUndefined
| PNull
| PBoolean (b : bool)
| PNumber (n : Z).

#[local] Unset Elimination Schemes.
Inductive Any : Type :=
| ABigInt (z : Z)
| AString (s : string)
| APrimitive (p : Primitive)
| AArray (items : list Any)
| AObject (entries : list (string * Any)).
#[local] Set Elimination Schemes.

(** [newObj[key] = value] on an object that [{}] created, as a change
    of its own entries.  An ordinary key becomes an own property, or
    replaces the value of the one present.  The key ["__proto__"] names
    the accessor that the object inherits from [Object.prototype]: the
    assignment runs its setter, which may replace the prototype of
    [newObj] (when [value] is an object) and creates no own property,
    so the own entries stay as they are. *)
Definition assign (newObj : JsMap Any) (key : string) (value : Any)
  : JsMap Any :=
  if String.eqb key "__proto__" then newObj else map_set newObj key value.

Fixpoint serializeBigInts (obj : Any) : Any :=
  match obj with
  | ABigInt z => AString (BigInt_toString z)
  | AArray items => AArray (map serializeBigInts items)
  | AObject entries =>
      AObject (fold_left
                 (fun (newObj : JsMap Any) (entry : string * Any) =>
                    assign newObj (fst entry) (serializeBigInts (snd entry)))
                 entries [])
  | _ => obj
  end.



(** ** Notions used in the statements *)

(** The amount of a decoded ERC20 Transfer event: the bigint held by
    the first body field. *)
Definition transfer_amount (log : DecodedEvent) : option Z :=
  match body_at log 0 with
  | JsObject (JsBigInt amount) => Some amount
  | _ => None
  end.

(** An entry of a decoded batch as [getTokenBalances] expects it:
    [null], or an event with a transfer amount. *)
Definition decoded_transfer (log : option DecodedEvent) : Prop :=
  match log with
  | Some log => is_Some (transfer_amount log)
  | None => True
  end.

(** The sum of the amounts of the events that [token] emitted. *)
Fixpoint received (token : string) (decodedLogs : list (option DecodedEvent))
  : Z :=
  match decodedLogs with
  | [] => 0
  | Some log :: rest =>
      (if String.eqb (address log) token
       then default 0 (transfer_amount log) else 0) + received token rest
  | None :: rest => received token rest
  end.

(** [token] emitted at least one event of the batch. *)
Definition emitted_by (token : string)
    (decodedLogs : list (option DecodedEvent)) : Prop :=
  ∃ log, Some log ∈ decodedLogs ∧ address log = token.

(** The events [getNFTBalances] records: ERC721 Transfer and ERC1155
    TransferSingle. *)
Definition nft_relevant (log : DecodedEvent) : bool :=
  String.eqb (topic0 log) ERC721_TRANSFER_TOPIC
  || String.eqb (topic0 log) ERC1155_TRANSFER_SINGLE_TOPIC.


(** The holding that one event stands for, taken alone. *)
Definition nft_entry (log : DecodedEvent) : NFTBalance :=
  if String.eqb (topic0 log) ERC721_TRANSFER_TOPIC then
    {| contractAddress := address log;
       tokenId := ToString (body_at log 0);
       standard := ERC721;
       nft_balance := JsBigInt 1 |}
  else
    {| contractAddress := address log;
       tokenId := ToString (body_at log 0);
       standard := ERC1155;
       nft_balance := body_at log 1 |}.

(** An entry of a decoded batch as [getNFTBalances] expects it: a
    recorded event carries its token id. *)
Definition has_token_id (log : option DecodedEvent) : Prop :=
  match log with
  | Some log => nft_relevant log = true → body_at log 0 ≠ JsUndefined
  | None => True
  end.

(** Contract addresses are hex strings; all that matters here is that
    they hold no dash, the separator of the map key. *)
Definition dash_free (s : string) : Prop :=
  "-"%char ∉ list_ascii_of_string s.


(** The last recorded event of the batch stored under map key [k]. *)
Fixpoint last_event (k : string) (decodedLogs : list (option DecodedEvent))
  : option DecodedEvent :=
  match decodedLogs with
  | [] => None
  | log :: rest =>
      match last_event k rest with
      | Some later => Some later
      | None =>
          match log with
          | Some log =>
              if nft_relevant log && String.eqb (nft_key log) k
              then Some log else None
          | None => None
          end
      end
  end.


(** ** Sample events *)

Definition transfer_event (token : string) (amount : Z) : DecodedEvent :=
  {| address := token; topic0 := ERC20_TRANSFER_TOPIC;
     body := [JsObject (JsBigInt amount)];
     transactionHash := "0x01"; blockNumber := 1; timestamp := 1 |}.

Definition erc721_event (contract : string) (id : Z) : DecodedEvent :=
  {| address := contract; topic0 := ERC721_TRANSFER_TOPIC;
     body := [JsBigInt id];
     transactionHash := "0x02"; blockNumber := 2; timestamp := 2 |}.

Definition erc1155_event (contract : string) (id value : Z) : DecodedEvent :=
  {| address := contract; topic0 := ERC1155_TRANSFER_SINGLE_TOPIC;
     body := [JsBigInt id; JsBigInt value];
     transactionHash := "0x03"; blockNumber := 3; timestamp := 3 |}.

(** ** States of the class *)

(** The states the class can be in: as loaded, or after a call of
    [initialize] (every public operation starts with one, and nothing
    else writes the static fields). *)
Inductive reachable : Statics → Prop :=
| reachable_loaded api_key : reachable (loaded api_key)
| reachable_initialize chainId st :
    reachable st → reachable (snd (initialize chainId st)).

(** Cached clients belong to catalog chains, and the decoder exists as
    soon as one client does. *)
Definition registry_invariant (st : Statics) : Prop :=
  ∀ chainId,
    is_Some (clients st !! chainId) →
    is_Some (SUPPORTED_CHAINS !! chainId) ∧ is_Some (decoder st).

(** ** Sample query services *)

(** A response whose first transaction has the given output. *)
Definition respond (out : option string) : QueryResponse unit :=
  {| data_logs := [];
     data_transactions := Some [ {| output := out |} ];
     archiveHeight := 0 |}.

(** The selector a probe query asks for. *)
Definition selector_of (query : Query) : string :=
  match transactions query with
  | Some (tx :: _) =>
      match sel_input tx with
      | Some (selector :: _) => selector
      | _ => ""
      end
  | _ => ""
  end.

(** The return data of [symbol()] for "USDC": offset word, length word,
    then the four bytes padded to a word. *)
Definition USDC_SYMBOL_OUTPUT : string :=
  "0x"
  +:+ "0000000000000000000000000000000000000000000000000000000000000020"
  +:+ "0000000000000000000000000000000000000000000000000000000000000004"
  +:+ "5553444300000000000000000000000000000000000000000000000000000000".

(** A token that answers [symbol()] with "USDC" and [decimals()] with 6,
    and returns no data for the other probes. *)
Definition usdc_service (client : HypersyncClient) (query : Query)
  : Throws (QueryResponse unit) :=
  if String.eqb (selector_of query) "0x95d89b41"
  then ok (respond (Some USDC_SYMBOL_OUTPUT))
  else if String.eqb (selector_of query) "0x313ce567"
  then ok (respond (Some
         "0x0000000000000000000000000000000000000000000000000000000000000006"))
  else ok (respond (Some "0x")).

(** A service whose [decimals()] probe is rejected; the other probes
    return empty data. *)
Definition failing_decimals_service (client : HypersyncClient) (query : Query)
  : Throws (QueryResponse unit) :=
  if String.eqb (selector_of query) "0x313ce567"
  then throw (ServiceFailure "timeout")
  else ok (respond (Some "0x")).

(** A service that returns one raw log, and a decoder that matches no
    signature and so returns [null] for it. *)
Definition one_log_service (client : HypersyncClient) (query : Query)
  : Throws (QueryResponse unit) :=
  ok {| data_logs := [tt]; data_transactions := None; archiveHeight := 0 |}.

Definition null_decoder (d : Decoder) (raw : list unit)
  : Throws (list (option DecodedEvent)) :=
  ok (map (fun _ => None) raw).

(** A response without output, with empty output, or with ["0x"]. *)
Definition no_data {Log} (response : QueryResponse Log) : Prop :=
  first_output Log response = None
  ∨ first_output Log response = Some ""
  ∨ first_output Log response = Some "0x".

(** ** Structures of objects, arrays and bigints *)

Fixpoint distinct (keys : list string) : bool :=
  match keys with
  | [] => true
  | k :: rest => negb (existsb (String.eqb k) rest) && distinct rest
  end.

(** Whether ["__proto__"] is among the own keys of an object. *)
Definition own_proto (keys : list string) : bool :=
  existsb (String.eqb "__proto__") keys.





(** ** The remaining operations of HypersyncHelper *)

(** [response.data], as far as the model holds it. *)
Record ResponseData (Log : Type) : Type := {
  rd_logs : list Log;
  rd_transactions : option (list Transaction)
}.
Arguments rd_logs {Log}.
Arguments rd_transactions {Log}.

Definition response_data {Log} (response : QueryResponse Log)
  : ResponseData Log :=
  {| rd_logs := data_logs response;
     rd_transactions := data_transactions response |}.

Record PoolStats : Type := {
  pool_address : string;
  token0 : string;
  token1 : string;
  reserves : Z * Z;
  pool_totalSupply : Z;
  swaps : list DexSwap;
  volumeUSD : Z
}.

Section MoreOperations.

Variable Log : Type.
Variable get : HypersyncClient -> Query -> Throws (QueryResponse Log).
Variable ethers_id : string -> string.

Definition contractEvents_query (contractAddress eventSignature : string)
    (fromBlock toBlock : option Z) : Query :=
  let eventTopic := ethers_id eventSignature in
  {| fromBlock := or_zero fromBlock;
     toBlock := toBlock;
     fieldSelection :=
       {| fs_log := Some Object_values;
          fs_block := Some (Listed [BlockField_Timestamp; BlockField_Number]);
          fs_transaction := Some (Listed [TransactionField_Hash]) |};
     logs := Some [ {| sel_address := Some [contractAddress];
                       sel_topics := Some [ Some [eventTopic] ] |} ];
     transactions := None |}.

Definition getContractEvents (chainId : Z)
    (contractAddress eventSignature : string) (fromBlock toBlock : option Z)
  : Helper (ResponseData Log) :=
  let* _ := initialize chainId in
  let query :=
    contractEvents_query contractAddress eventSignature fromBlock toBlock in
  let* client := getClient chainId in
  let* response := hlift (get client query) in
  hret (response_data response).

Definition blockRange_query (fromBlock toBlock : Z) : Query :=
  {| fromBlock := fromBlock;
     toBlock := Some toBlock;
     fieldSelection :=
       {| fs_log := None;
          fs_block := Some Object_values;
          fs_transaction := Some Object_values |};
     logs := None;
     transactions := None |}.

Definition getBlockRange (chainId fromBlock toBlock : Z)
  : Helper (ResponseData Log) :=
  let* _ := initialize chainId in
  let query := blockRange_query fromBlock toBlock in
  let* client := getClient chainId in
  let* response := hlift (get client query) in
  hret (response_data response).

Definition latestBlock_query : Query :=
  {| fromBlock := 0;
     toBlock := None;
     fieldSelection :=
       {| fs_log := None;
          fs_block := Some (Listed [BlockField_Number]);
          fs_transaction := None |};
     logs := None;
     transactions := None |}.

Definition getLatestBlockNumber (chainId : Z) : Helper Z :=
  let* _ := initialize chainId in
  let query := latestBlock_query in
  let* client := getClient chainId in
  let* response := hlift (get client query) in
  hret (archiveHeight response).

Definition poolStats_query (poolAddress : string)
    (fromBlock toBlock : option Z) : Query :=
  {| fromBlock := or_zero fromBlock;
     toBlock := toBlock;
     fieldSelection :=
       {| fs_log := Some Object_values;
          fs_block := Some (Listed [BlockField_Timestamp]);
          fs_transaction := Some (Listed [TransactionField_Hash]) |};
     logs := Some [ {| sel_address := Some [poolAddress];
                       sel_topics := None |} ];
     transactions := None |}.

(** The response is awaited and then left unused. *)
Definition getLiquidityPoolStats (chainId : Z) (poolAddress : string)
    (fromBlock toBlock : option Z) : Helper PoolStats :=
  let* _ := initialize chainId in
  let query := poolStats_query poolAddress fromBlock toBlock in
  let* client := getClient chainId in
  let* response := hlift (get client query) in
  hret {| pool_address := poolAddress;
          token0 := "0x";
          token1 := "0x";
          reserves := (0, 0);
          pool_totalSupply := 0;
          swaps := [];
          volumeUSD := 0 |}.

End MoreOperations.

(** ** JSON.stringify *)

Definition quote_char : ascii := ascii_of_nat 34.
Definition backslash_char : ascii := ascii_of_nat 92.

Definition hex_char (n : nat) : ascii :=
  if (n <? 10)%nat then ascii_of_nat (48 + n) else ascii_of_nat (87 + n).

(** One code unit inside a JSON string literal: the quote, the
    backslash and the control characters are escaped. *)
Definition JSON_escape (c : ascii) : string :=
  let n := nat_of_ascii c in
  let esc (x : ascii) := String backslash_char (String x EmptyString) in
  if (n =? 34)%nat then esc quote_char
  else if (n =? 92)%nat then esc backslash_char
  else if (n =? 8)%nat then esc "b"%char
  else if (n =? 9)%nat then esc "t"%char
  else if (n =? 10)%nat then esc "n"%char
  else if (n =? 12)%nat then esc "f"%char
  else if (n =? 13)%nat then esc "r"%char
  else if (n <? 32)%nat then
    String backslash_char
      (String "u"%char (String "0"%char (String "0"%char
         (String (hex_char (Nat.div n 16))
            (String (hex_char (Nat.modulo n 16)) EmptyString)))))
  else String c EmptyString.

Fixpoint JSON_escape_all (s : string) : string :=
  match s with
  | EmptyString => EmptyString
  | String c s' => JSON_escape c +:+ JSON_escape_all s'
  end.

Definition JSON_quote (s : string) : string :=
  String quote_char (JSON_escape_all s +:+ String quote_char EmptyString).

Fixpoint join_comma (parts : list string) : string :=
  match parts with
  | [] => EmptyString
  | [part] => part
  | part :: rest => part +:+ "," +:+ join_comma rest
  end.

(** [JSON.stringify(value)].  A bigint throws a TypeError; [undefined]
    has no text: it gives [undefined] at the top, [null] inside an
    array, and drops its property from an object.  Numbers are the
    integers of [PNumber], printed in decimal. *)
Fixpoint JSON_stringify (value : Any) : Throws (option string) :=
  match value with
  | ABigInt _ => throw TypeError
  | AString s => ok (Some (JSON_quote s))
  | APrimitive PUndefined => ok None
  | APrimitive PNull => ok (Some "null")
  | APrimitive (PBoolean true) => ok (Some "true")
  | APrimitive (PBoolean false) => ok (Some "false")
  | APrimitive (PNumber n) => ok (Some (BigInt_toString n))
  | AArray items =>
      let! parts :=
        array_map (fun item : Any =>
                     let! text := JSON_stringify item in
                     ok (match text with Some t => t | None => "null" end))
                  items in
      ok (Some ("[" +:+ join_comma parts +:+ "]"))
  | AObject entries =>
      let! parts :=
        array_map (fun entry : string * Any =>
                     let! text := JSON_stringify (snd entry) in
                     ok (match text with
                         | Some t => [JSON_quote (fst entry) +:+ ":" +:+ t]
                         | None => []
                         end))
                  entries in
      ok (Some ("{" +:+ join_comma (concat parts) +:+ "}"))
  end.

(** ** The objects the operations return, as [Any] values *)

Fixpoint JsValue_to_any (v : JsValue) : Any :=
  match v with
  | JsUndefined => APrimitive PUndefined
  | JsBigInt z => ABigInt z
  | JsString s => AString s
  | JsBoolean b => APrimitive (PBoolean b)
  | JsObject val => AObject [("val", JsValue_to_any val)]
  end.

Definition TokenBalance_to_any (row : TokenBalance) : Any :=
  AObject [("token", AString (token row)); ("balance", ABigInt (balance row))].

Definition NFTStandard_to_string (s : NFTStandard) : string :=
  match s with
  | ERC721 => "ERC721"
  | ERC1155 => "ERC1155"
  end.

Definition NFTBalance_to_any (row : NFTBalance) : Any :=
  AObject [("contractAddress", AString (contractAddress row));
           ("tokenId", AString (tokenId row));
           ("standard", AString (NFTStandard_to_string (standard row)));
           ("balance", JsValue_to_any (nft_balance row))].

Definition DexSwap_to_any (swap : DexSwap) : Any :=
  AObject [("transactionHash", AString (swap_transactionHash swap));
           ("blockNumber", APrimitive (PNumber (swap_blockNumber swap)));
           ("timestamp", APrimitive (PNumber (swap_timestamp swap)));
           ("tokenIn", AString (tokenIn swap));
           ("tokenOut", AString (tokenOut swap));
           ("amountIn", ABigInt (amountIn swap));
           ("amountOut", ABigInt (amountOut swap));
           ("sender", AString (sender swap));
           ("recipient", AString (recipient swap))].

Definition PoolStats_to_any (stats : PoolStats) : Any :=
  AObject [("address", AString (pool_address stats));
           ("token0", AString (token0 stats));
           ("token1", AString (token1 stats));
           ("reserves", AArray [ABigInt (fst (reserves stats));
                                ABigInt (snd (reserves stats))]);
           ("totalSupply", ABigInt (pool_totalSupply stats));
           ("swaps", AArray (map DexSwap_to_any (swaps stats)));
           ("volumeUSD", APrimitive (PNumber (volumeUSD stats)))].

(** [NaN] is given as [null], which is how [JSON.stringify] prints
    it. *)
Definition JsNumber_to_any (n : JsNumber) : Any :=
  match n with
  | Num n => APrimitive (PNumber n)
  | NaN => APrimitive PNull
  end.

Definition TokenMetadata_to_any (md : TokenMetadata) : Any :=
  AObject [("address", AString (md_address md));
           ("name", AString (md_name md));
           ("symbol", AString (md_symbol md));
           ("decimals", JsNumber_to_any (md_decimals md));
           ("totalSupply", ABigInt (md_totalSupply md))].

(** ** The tools of index.ts *)

(** What [execute] returns: [{ success: true, data }] or
    [{ success: false, error }], the error standing for its message. *)
Record ToolResult : Type := {
  success : bool;
  data : option string;
  error : option Error
}.

Definition tool_success (text : option string) : ToolResult :=
  {| success := true; data := text; error := None |}.

Definition tool_failure (e : Error) : ToolResult :=
  {| success := false; data := None; error := Some e |}.

(** [try { const x = await run; return { success: true, data: render(x) } }
     catch (error) { return { success: false, error: error.message } }] *)
Definition tool_execute {A} (run : Helper A)
    (render : A -> Throws (option string)) (st : Statics)
  : ToolResult * Statics :=
  match run st with
  | (inl e, st') => (tool_failure e, st')
  | (inr x, st') =>
      match render x with
      | inl e => (tool_failure e, st')
      | inr text => (tool_success text, st')
      end
  end.

Section Tools.

Variable Log : Type.
Variable get : HypersyncClient -> Query -> Throws (QueryResponse Log).
Variable decodeLogs :
  Decoder -> list Log -> Throws (list (option DecodedEvent)).
Variable ethers_id : string -> string.

Definition getTokenBalancesTool (chainId : Z) (walletAddress : string)
    (fromBlock : option Z) : Statics -> ToolResult * Statics :=
  tool_execute
    (getTokenBalances Log get decodeLogs chainId walletAddress fromBlock)
    (fun balances =>
       let serializedBalances :=
         serializeBigInts (AArray (map TokenBalance_to_any balances)) in
       JSON_stringify serializedBalances).

Definition getNFTBalancesTool (chainId : Z) (walletAddress : string)
    (fromBlock : option Z) : Statics -> ToolResult * Statics :=
  tool_execute
    (getNFTBalances Log get decodeLogs chainId walletAddress fromBlock)
    (fun nfts =>
       let serializedNfts :=
         serializeBigInts (AArray (map NFTBalance_to_any nfts)) in
       JSON_stringify serializedNfts).

(** The metadata goes to [JSON.stringify] as it is, without
    [serializeBigInts]. *)
Definition getTokenMetadataTool (chainId : Z) (tokenAddress : string)
  : Statics -> ToolResult * Statics :=
  tool_execute
    (getTokenMetadata Log get chainId tokenAddress)
    (fun metadata => JSON_stringify (TokenMetadata_to_any metadata)).

Definition getDexSwapsTool (chainId : Z) (dexAddress : string)
    (fromBlock toBlock : option Z) (tokenAddress : option string)
  : Statics -> ToolResult * Statics :=
  tool_execute
    (getDexSwaps Log get decodeLogs ethers_id chainId dexAddress
       fromBlock toBlock tokenAddress)
    (fun swaps =>
       let serializedSwaps :=
         serializeBigInts (AArray (map DexSwap_to_any swaps)) in
       JSON_stringify serializedSwaps).

Definition getLiquidityPoolStatsTool (chainId : Z) (poolAddress : string)
    (fromBlock toBlock : option Z) : Statics -> ToolResult * Statics :=
  tool_execute
    (getLiquidityPoolStats Log get chainId poolAddress fromBlock toBlock)
    (fun stats =>
       let serializedStats := serializeBigInts (PoolStats_to_any stats) in
       JSON_stringify serializedStats).

End Tools.

(** ** Further notions used in the statements *)

(** The state after a sequence of [initialize] calls, failed ones
    included. *)
Definition initialize_all (chainIds : list Z) (st : Statics) : Statics :=
  fold_left (fun st chainId => snd (initialize chainId st)) chainIds st.

(** A computation that leaves the static fields alone. *)
Definition read_only {A} (c : Helper A) : Prop :=
  forall st, snd (c st) = st.

(** The balance listed for [token] in the rows, 0 when there is no
    row for it. *)
Fixpoint balance_in (t : string) (rows : list TokenBalance) : Z :=
  match rows with
  | [] => 0
  | row :: rest =>
      if String.eqb (token row) t then balance row else balance_in t rest
  end.

(** A value that holds a bigint somewhere. *)
Fixpoint has_bigint (v : Any) : bool :=
  match v with
  | ABigInt _ => true
  | AArray items => existsb has_bigint items
  | AObject entries =>
      existsb (fun entry : string * Any => has_bigint (snd entry)) entries
  | _ => false
  end.

(** A value whose objects list each key once, as JavaScript objects
    do, and have no own key ["__proto__"]. *)
Fixpoint well_keyed (v : Any) : bool :=
  match v with
  | AArray items => forallb well_keyed items
  | AObject entries =>
      distinct (map fst entries)
      && negb (own_proto (map fst entries))
      && forallb (fun entry : string * Any => well_keyed (snd entry)) entries
  | _ => true
  end.

(** The JSON text of one balance row after [serializeBigInts]: the
    balance is a decimal string. *)
Definition balance_row_json (row : TokenBalance) : string :=
  "{" +:+ join_comma
            [ JSON_quote "token" +:+ ":" +:+ JSON_quote (token row);
              JSON_quote "balance" +:+ ":"
                +:+ JSON_quote (BigInt_toString (balance row)) ]
      +:+ "}".

(** ** ABI encodings, for the statements about decoding *)

(** [width] hexadecimal digits of [z], most significant first. *)
Fixpoint hex_fixed (width : nat) (z : Z) : string :=
  match width with
  | O => EmptyString
  | S w =>
      String (hex_char (Z.to_nat (z / 16 ^ Z.of_nat w)))
             (hex_fixed w (z mod 16 ^ Z.of_nat w))
  end.

(** A 32-byte word holding an unsigned integer. *)
Definition abi_word (z : Z) : string := hex_fixed 64 z.

Fixpoint hex_of_bytes (s : string) : string :=
  match s with
  | EmptyString => EmptyString
  | String c s' =>
      String (hex_char (Nat.div (nat_of_ascii c) 16))
        (String (hex_char (Nat.modulo (nat_of_ascii c) 16)) (hex_of_bytes s'))
  end.

(** The return data of a function returning one [string], without the
    [0x] prefix: the offset word, the length word, then the bytes padded
    with zeros to whole words. *)
Definition abi_string (s : string) : string :=
  abi_word 32
  +:+ abi_word (Z.of_nat (String.length s))
  +:+ hex_of_bytes s
  +:+ zeros (Nat.modulo (64 - Nat.modulo (2 * String.length s) 64) 64).

(** Characters below 128. *)
Fixpoint is_ascii_text (s : string) : bool :=
  match s with
  | EmptyString => true
  | String c s' => (nat_of_ascii c <? 128)%nat && is_ascii_text s'
  end.

(** * Properties *)

(** ** Strings *)

Lemma append_nil_l (t : string) : "" +:+ t = t.
Proof. reflexivity. Qed.

Lemma append_cons_l (c : ascii) (s t : string) :
  String c s +:+ t = String c (s +:+ t).
Proof. reflexivity. Qed.

Lemma length_append (s t : string) :
  String.length (s +:+ t) = (String.length s + String.length t)%nat.
Proof.
  induction s as [|c s IH]; [done|].
  rewrite append_cons_l. simpl. by rewrite IH.
Qed.

(** ** Insertion-ordered maps *)

Section JsMapFacts.
Context {V : Type}.
Implicit Types (m : JsMap V) (k : string) (v : V).

Lemma map_get_set_eq m k v : map_get (map_set m k v) k = Some v.
Proof.
  induction m as [|[k' v'] m IH]; simpl.
  - by rewrite String.eqb_refl.
  - destruct (String.eqb k' k) eqn:E; simpl; rewrite E; done.
Qed.

Lemma map_get_set_ne m k k' v :
  k ≠ k' → map_get (map_set m k v) k' = map_get m k'.
Proof.
  intros Hne. induction m as [|[k0 v0] m IH]; simpl.
  - destruct (String.eqb_spec k k'); done.
  - destruct (String.eqb_spec k0 k) as [->|]; simpl.
    + destruct (String.eqb_spec k k'); done.
    + by rewrite IH.
Qed.

Lemma map_get_None m k : map_get m k = None ↔ k ∉ map_keys m.
Proof.
  induction m as [|[k' v'] m IH]; simpl.
  - split; [intros _; apply not_elem_of_nil | done].
  - rewrite not_elem_of_cons.
    destruct (String.eqb_spec k' k) as [->|Hne].
    + split; [done|]. by intros [? _].
    + rewrite IH. split; [by split|by intros [_ ?]].
Qed.

Lemma map_keys_set m k v :
  map_keys (map_set m k v) =
  match map_get m k with
  | Some _ => map_keys m
  | None => map_keys m ++ [k]
  end.
Proof.
  induction m as [|[k' v'] m IH]; simpl; [done|].
  destruct (String.eqb_spec k' k) as [->|Hne]; simpl; [done|].
  rewrite IH. by destruct (map_get m k).
Qed.

Lemma map_set_NoDup m k v :
  NoDup (map_keys m) → NoDup (map_keys (map_set m k v)).
Proof.
  intros Hnd. rewrite map_keys_set.
  destruct (map_get m k) eqn:E; [done|].
  apply NoDup_app. split_and!; [done| |apply NoDup_singleton].
  intros x Hx ->%list_elem_of_singleton. by apply map_get_None in E.
Qed.

Lemma map_get_elem_of m k v :
  NoDup (map_keys m) → map_get m k = Some v ↔ (k, v) ∈ m.
Proof.
  induction m as [|[k' v'] m IH]; simpl; intros Hnd.
  - split; [done | by intros ?%elem_of_nil].
  - apply NoDup_cons in Hnd as [Hk' Hnd]. rewrite elem_of_cons.
    destruct (String.eqb_spec k' k) as [->|Hne].
    + split; [intros [= ->]; by left|]. intros [[= ->]|Hin]; [done|].
      exfalso. apply Hk'. unfold map_keys.
      apply list_elem_of_fmap. by exists (k, v).
    + rewrite IH by done. split; [by right|].
      intros [[= -> ->]|Hin]; [done|exact Hin].
Qed.

End JsMapFacts.

(** ** Loops *)

Lemma for_of_cons {A S} (step : S → A → Throws S) acc x xs :
  for_of step acc (x :: xs) =
  tbind (step acc x) (λ acc', for_of step acc' xs).
Proof. reflexivity. Qed.

Lemma tbind_ok {A B} (a : A) (k : A → Throws B) : tbind (ok a) k = k a.
Proof. reflexivity. Qed.

(** ** getTokenBalances: the fold *)

Lemma tokenBalances_step_transfer balances log amount :
  transfer_amount log = Some amount →
  tokenBalances_step balances (Some log) =
  ok (map_set balances (address log)
        (default 0 (map_get balances (address log)) + amount)).
Proof.
  unfold transfer_amount, tokenBalances_step. intros H.
  destruct (body_at log 0) as [| | | |[]]; try discriminate.
  injection H as ->. simpl.
  destruct (map_get balances (address log)) as [b|]; simpl; [|done].
  destruct (Z.eqb_spec b 0) as [->|]; done.
Qed.

Lemma emitted_by_cons_Some token log rest :
  emitted_by token (Some log :: rest) ↔
  address log = token ∨ emitted_by token rest.
Proof.
  unfold emitted_by. split.
  - intros (l & Hin & Ha). apply elem_of_cons in Hin as [[= <-]|Hin]; eauto.
  - intros [Ha|(l & Hin & Ha)].
    + exists log. split; [left|done].
    + exists l. split; [by right|done].
Qed.

Lemma emitted_by_cons_None token rest :
  emitted_by token (None :: rest) ↔ emitted_by token rest.
Proof.
  unfold emitted_by. split.
  - intros (l & Hin & Ha). apply elem_of_cons in Hin as [?|Hin]; [done|eauto].
  - intros (l & Hin & Ha). exists l. split; [by right|done].
Qed.

Lemma emitted_by_nil token : ¬ emitted_by token [].
Proof. intros (l & Hin & _). by apply elem_of_nil in Hin. Qed.

Lemma emitted_by_dec token decodedLogs :
  emitted_by token decodedLogs ∨ ¬ emitted_by token decodedLogs.
Proof.
  induction decodedLogs as [|[log|] rest IH].
  - right. apply emitted_by_nil.
  - rewrite emitted_by_cons_Some.
    destruct (String.eqb_spec (address log) token); tauto.
  - by rewrite emitted_by_cons_None.
Qed.

(** The loop from any starting map: it returns, keeps the keys
    distinct, and adds to every token what the batch holds for it. *)
Lemma tokenBalances_loop decodedLogs : ∀ balances,
  Forall decoded_transfer decodedLogs →
  NoDup (map_keys balances) →
  ∃ m, for_of tokenBalances_step balances decodedLogs = ok m
     ∧ NoDup (map_keys m)
     ∧ ∀ t, (∀ b, map_get balances t = Some b →
                  map_get m t = Some (b + received t decodedLogs))
          ∧ (map_get balances t = None →
             (emitted_by t decodedLogs →
                map_get m t = Some (received t decodedLogs))
           ∧ (¬ emitted_by t decodedLogs → map_get m t = None)).
Proof.
  induction decodedLogs as [|[log|] rest IH]; intros balances Hshape Hnd.
  - exists balances. split_and!; [done..|]. intros t. split.
    + intros b ->. simpl. f_equal. lia.
    + intros Hnone. split; [|done]. intros H. by apply emitted_by_nil in H.
  - apply Forall_cons in Hshape as [[amount Hamount] Hshape].
    rewrite for_of_cons, (tokenBalances_step_transfer _ _ _ Hamount), tbind_ok.
    set (balances' := map_set _ _ _).
    destruct (IH balances' Hshape) as (m & Hm & Hndm & Hget).
    { by apply map_set_NoDup. }
    exists m. split_and!; [done..|]. intros t.
    cbn [received]. rewrite Hamount. cbn [default].
    destruct (String.eqb_spec (address log) t) as [<-|Hne].
    + destruct (Hget (address log)) as [Hsome _].
      specialize (Hsome _ (map_get_set_eq _ _ _)).
      split.
      * intros b Hb. rewrite Hsome, Hb. simpl. f_equal. lia.
      * intros Hnone. rewrite Hsome, Hnone. simpl. split; [|intros []].
        -- intros _. f_equal.
        -- apply emitted_by_cons_Some. by left.
    + destruct (Hget t) as [Hsome Hnone].
      unfold balances' in Hsome, Hnone.
      rewrite map_get_set_ne in Hsome, Hnone by done.
      split; [done|]. intros Hn. destruct (Hnone Hn) as [H1 H2].
      rewrite emitted_by_cons_Some. split.
      * intros [?|?]; [done|]. rewrite H1 by done. f_equal.
      * intros ?. apply H2. tauto.
  - apply Forall_cons in Hshape as [_ Hshape]. rewrite for_of_cons.
    cbn [tokenBalances_step]. rewrite tbind_ok.
    destruct (IH balances Hshape Hnd) as (m & Hm & Hndm & Hget).
    exists m. split_and!; [done..|]. intros t.
    rewrite emitted_by_cons_None. apply Hget.
Qed.



(** ** getNFTBalances: the fold *)

Lemma nftBalances_step_relevant nftBalances log :
  nft_relevant log = true → body_at log 0 ≠ JsUndefined →
  nftBalances_step nftBalances (Some log) =
  ok (map_set nftBalances (nft_key log) (nft_entry log)).
Proof.
  unfold nft_relevant, nftBalances_step, nft_entry. intros Hrel Hid.
  assert (toString_method (body_at log 0) = ok (ToString (body_at log 0)))
    as Hstr by (by destruct (body_at log 0)).
  rewrite Hstr.
  destruct (String.eqb (topic0 log) ERC721_TRANSFER_TOPIC); [done|].
  simpl in Hrel. by rewrite Hrel.
Qed.

Lemma nftBalances_step_other nftBalances log :
  nft_relevant log = false →
  nftBalances_step nftBalances (Some log) = ok nftBalances.
Proof.
  unfold nft_relevant, nftBalances_step. intros [-> ->]%orb_false_iff. done.
Qed.

Lemma last_event_None k decodedLogs :
  last_event k decodedLogs = None ↔
  ∀ log, Some log ∈ decodedLogs → nft_relevant log = true → nft_key log ≠ k.
Proof.
  induction decodedLogs as [|[log|] rest IH]; simpl.
  - split; [|done]. intros _ log Hin. by apply elem_of_nil in Hin.
  - destruct (last_event k rest) as [later|].
    + split; [done|]. intros H.
      assert (Some later = None) as Hn; [|done].
      apply IH. intros l Hin. apply H. by right.
    + destruct (nft_relevant log) eqn:Hrel; simpl.
      * destruct (String.eqb_spec (nft_key log) k) as [Hk|Hk].
        -- split; [done|]. intros H. exfalso.
           apply (H log); [left|done..].
        -- split; [|done]. intros _ l [[= ->]|Hin]%elem_of_cons ?; [done|].
           by apply IH.
      * split; [|done]. intros _ l [[= ->]|Hin]%elem_of_cons ?; [congruence|].
        by apply IH.
  - destruct (last_event k rest) as [later|].
    + split; [done|]. intros H.
      assert (Some later = None) as Hn; [|done].
      apply IH. intros l Hin. apply H. by right.
    + split; [|done]. intros _ l [?|Hin]%elem_of_cons ?; [done|].
      by apply IH.
Qed.


(** The loop from any starting map: what is stored under a key is the
    holding of the last event recorded under it. *)
Lemma nftBalances_loop decodedLogs : ∀ nftBalances,
  Forall has_token_id decodedLogs →
  NoDup (map_keys nftBalances) →
  ∃ m, for_of nftBalances_step nftBalances decodedLogs = ok m
     ∧ NoDup (map_keys m)
     ∧ ∀ k, map_get m k =
            match last_event k decodedLogs with
            | Some log => Some (nft_entry log)
            | None => map_get nftBalances k
            end.
Proof.
  induction decodedLogs as [|[log|] rest IH]; intros m0 Hshape Hnd.
  - by exists m0.
  - apply Forall_cons in Hshape as [Hid Hshape]. rewrite for_of_cons.
    destruct (nft_relevant log) eqn:Hrel.
    + rewrite nftBalances_step_relevant, tbind_ok by auto.
      destruct (IH (map_set m0 (nft_key log) (nft_entry log)) Hshape)
        as (m & Hm & Hndm & Hget); [by apply map_set_NoDup|].
      exists m. split_and!; [done..|]. intros k. rewrite Hget. simpl.
      destruct (last_event k rest); [done|]. rewrite Hrel. simpl.
      destruct (String.eqb_spec (nft_key log) k) as [<-|Hne].
      * apply map_get_set_eq.
      * by apply map_get_set_ne.
    + rewrite nftBalances_step_other, tbind_ok by done.
      destruct (IH m0 Hshape Hnd) as (m & Hm & Hndm & Hget).
      exists m. split_and!; [done..|]. intros k. rewrite Hget. simpl.
      destruct (last_event k rest); [done|]. by rewrite Hrel.
  - apply Forall_cons in Hshape as [_ Hshape]. rewrite for_of_cons.
    cbn [nftBalances_step]. rewrite tbind_ok.
    destruct (IH m0 Hshape Hnd) as (m & Hm & Hndm & Hget).
    exists m. split_and!; [done..|]. intros k. rewrite Hget. simpl.
    by destruct (last_event k rest).
Qed.

Lemma dash_free_cons c s :
  dash_free (String c s) ↔ c ≠ "-"%char ∧ dash_free s.
Proof.
  unfold dash_free. simpl. rewrite not_elem_of_cons. intuition congruence.
Qed.

(** A 0x-prefixed string of hex digits, as the service reports
    addresses, has no dash. *)
Lemma hex_address_dash_free digits :
  all_hex digits = true → dash_free ("0x" +:+ digits).
Proof.
  intros Hhex. repeat (rewrite append_cons_l || rewrite append_nil_l).
  apply dash_free_cons. split; [done|].
  apply dash_free_cons. split; [done|].
  induction digits as [|c digits IH].
  - unfold dash_free. apply not_elem_of_nil.
  - simpl in Hhex. apply andb_true_iff in Hhex as [Hc Hhex].
    apply dash_free_cons. split; [|by apply IH].
    intros ->. discriminate.
Qed.









(** ** The chain registry *)

Lemma initialize_unsupported chainId st :
  SUPPORTED_CHAINS !! chainId = None →
  initialize chainId st = (throw (ChainNotSupported chainId), st).
Proof. unfold initialize. by intros ->. Qed.

Lemma initialize_cached chainId st :
  is_Some (SUPPORTED_CHAINS !! chainId) →
  is_Some (clients st !! chainId) →
  initialize chainId st = (ok tt, st).
Proof. unfold initialize. by intros [config ->] [client ->]. Qed.

(** On a catalog chain [initialize] returns, and leaves a client for the
    chain in the map. *)
Lemma initialize_supported chainId st :
  is_Some (SUPPORTED_CHAINS !! chainId) →
  fst (initialize chainId st) = ok tt
  ∧ is_Some (clients (snd (initialize chainId st)) !! chainId).
Proof.
  unfold initialize. intros [config ->].
  destruct (clients st !! chainId) as [client|] eqn:Hclient; simpl.
  - split; [done|]. by rewrite Hclient.
  - destruct (decoder st); simpl; rewrite lookup_insert_eq; eauto.
Qed.

Lemma initialize_invariant chainId st :
  registry_invariant st → registry_invariant (snd (initialize chainId st)).
Proof.
  unfold initialize. intros Hinv.
  destruct (SUPPORTED_CHAINS !! chainId) as [config|] eqn:Hconfig; [|done].
  destruct (clients st !! chainId) as [client|] eqn:Hclient; [done|].
  assert (∀ c new, is_Some (<[chainId:=new]> (clients st) !! c) →
                   is_Some (SUPPORTED_CHAINS !! c)) as Hcatalog.
  { intros c new. rewrite lookup_insert. case_decide; subst.
    - intros _. by rewrite Hconfig.
    - intros Hc. by destruct (Hinv c Hc). }
  cbn [decoder]. destruct (decoder st) as [d|] eqn:Hd; intros c Hc;
    cbn [snd clients decoder] in *.
  - split; [by eapply Hcatalog|]. eauto.
  - split; [by eapply Hcatalog|]. eauto.
Qed.

Lemma reachable_invariant st : reachable st → registry_invariant st.
Proof.
  induction 1 as [api_key|chainId st _ IH].
  - intros c. simpl. rewrite lookup_empty. by intros [? ?].
  - by apply initialize_invariant.
Qed.

(** C5.  For a chain id outside the catalog, [initialize] throws the
    unsupported-chain error and returns the static fields as they were;
    in every state the class can reach, the client map holds no handle
    for that chain id afterwards. *)
Theorem initialize_rejects_unknown_chain chainId st :
  SUPPORTED_CHAINS !! chainId = None →
  initialize chainId st = (throw (ChainNotSupported chainId), st)
  ∧ clients (snd (initialize chainId st)) = clients st
  ∧ (reachable st → clients (snd (initialize chainId st)) !! chainId = None).
Proof.
  intros Hnone. rewrite (initialize_unsupported _ _ Hnone). simpl.
  split_and!; [done..|]. intros Hreach.
  destruct (clients st !! chainId) as [client|] eqn:Hclient; [|done].
  destruct (reachable_invariant st Hreach chainId) as [[config Hc] _]; [eauto|].
  congruence.
Qed.

(** Chain 5 is not in the catalog; chain 1 has been initialized before. *)
Lemma initialize_rejects_unknown_chain_witness :
  initialize 5 (snd (initialize 1 (loaded None))) =
  (throw (ChainNotSupported 5), snd (initialize 1 (loaded None)))
  ∧ clients (snd (initialize 5 (snd (initialize 1 (loaded None))))) !! 5 = None.
Proof.
  destruct (initialize_rejects_unknown_chain 5 (snd (initialize 1 (loaded None))))
    as (Hthrows & _ & Hnone).
  - vm_compute. reflexivity.
  - split; [exact Hthrows|]. apply Hnone. apply reachable_initialize.
    apply reachable_loaded.
Defined.

(** C6.  For a chain id of the catalog, [initialize] returns; a second
    call returns as well and leaves the static fields as the first call
    left them: [getClient] gives the same handle before and after it,
    the decoder is the one that was there, and no object has been
    constructed. *)
Theorem initialize_idempotent chainId st :
  is_Some (SUPPORTED_CHAINS !! chainId) →
  let st1 := snd (initialize chainId st) in
  let st2 := snd (initialize chainId st1) in
  fst (initialize chainId st) = ok tt
  ∧ initialize chainId st1 = (ok tt, st1)
  ∧ (∃ client, getClient chainId st1 = (ok client, st1)
             ∧ getClient chainId st2 = (ok client, st2))
  ∧ decoder st2 = decoder st1
  ∧ constructed st2 = constructed st1.
Proof.
  intros Hchain st1 st2.
  destruct (initialize_supported chainId st Hchain) as [Hok Hclient].
  fold st1 in Hclient.
  assert (initialize chainId st1 = (ok tt, st1)) as Hsecond
    by (by apply initialize_cached).
  assert (st2 = st1) as -> by (unfold st2; by rewrite Hsecond).
  split_and!; [done..| |done|done].
  destruct Hclient as [client Hclient]. exists client.
  unfold getClient. by rewrite Hclient.
Qed.

(** Base (8453), from the class as loaded. *)
Lemma initialize_idempotent_witness :
  fst (initialize 8453 (loaded None)) = ok tt
  ∧ initialize 8453 (snd (initialize 8453 (loaded None))) =
    (ok tt, snd (initialize 8453 (loaded None))).
Proof.
  destruct (initialize_idempotent 8453 (loaded None)) as (H1 & H2 & _).
  - eexists. vm_compute. reflexivity.
  - split; assumption.
Defined.

(** ** The query of getTokenBalances *)


Lemma lower_char_idemp c : lower_char (lower_char c) = lower_char c.
Proof. by destruct c as [[] [] [] [] [] [] [] []]. Qed.


Lemma toLowerCase_idemp s : toLowerCase (toLowerCase s) = toLowerCase s.
Proof.
  induction s as [|c s IH]; simpl; [done|]. by rewrite lower_char_idemp, IH.
Qed.





(** ** The operations around their loops *)

(** On a catalog chain, in a state the class can reach, [initialize]
    returns and leaves both a client for the chain and the decoder. *)
Lemma initialize_ready chainId st :
  reachable st → is_Some (SUPPORTED_CHAINS !! chainId) →
  ∃ st' client d,
    initialize chainId st = (ok tt, st')
    ∧ getClient chainId st' = (ok client, st')
    ∧ getDecoder st' = (ok d, st').
Proof.
  intros Hreach Hchain.
  destruct (initialize_supported chainId st Hchain) as [Hok [client Hclient]].
  assert (registry_invariant (snd (initialize chainId st))) as Hinv
    by (apply initialize_invariant, reachable_invariant, Hreach).
  destruct (Hinv chainId) as [_ [d Hd]]; [by exists client|].
  exists (snd (initialize chainId st)), client, d. split_and!.
  - destruct (initialize chainId st) as [r st']. simpl in Hok. by subst r.
  - unfold getClient. by rewrite Hclient.
  - unfold getDecoder. by rewrite Hd.
Qed.

(** One call of an operation's body: rewrite with its result, then let
    the bind continue. *)
Ltac run_with H := rewrite H; cbv beta iota delta [ok throw].

Section Operations.
Context (Log : Type).
Context (get : HypersyncClient → Query → Throws (QueryResponse Log)).
Context (decodeLogs : Decoder → list Log → Throws (list (option DecodedEvent))).
Context (chainId : Z) (st : Statics).
Context (response : QueryResponse Log).
Context (decodedLogs : list (option DecodedEvent)).
Hypothesis Hreach : reachable st.
Hypothesis Hchain : is_Some (SUPPORTED_CHAINS !! chainId).
Hypothesis Hget : ∀ client query, get client query = ok response.
Hypothesis Hdecode : ∀ d, decodeLogs d (data_logs response) = ok decodedLogs.

(** When the service answers and the decoder returns [decodedLogs], each
    operation returns what its loop makes of [decodedLogs]. *)
Lemma getTokenBalances_run walletAddress since query :
  tokenBalances_query walletAddress since = ok query →
  fst (getTokenBalances Log get decodeLogs chainId walletAddress since st) =
  tokenBalances_of decodedLogs.
Proof.
  intros Hquery.
  destruct (initialize_ready chainId st Hreach Hchain)
    as (st' & client & d & Hinit & Hclient & Hdecoder).
  unfold getTokenBalances, hbind, hlift.
  run_with Hinit. run_with Hquery. run_with Hclient. run_with Hget.
  run_with Hdecoder. run_with Hdecode. reflexivity.
Qed.

Lemma getNFTBalances_run walletAddress since query :
  nftBalances_query walletAddress since = ok query →
  fst (getNFTBalances Log get decodeLogs chainId walletAddress since st) =
  nftBalances_of decodedLogs.
Proof.
  intros Hquery.
  destruct (initialize_ready chainId st Hreach Hchain)
    as (st' & client & d & Hinit & Hclient & Hdecoder).
  unfold getNFTBalances, hbind, hlift.
  run_with Hinit. run_with Hquery. run_with Hclient. run_with Hget.
  run_with Hdecoder. run_with Hdecode. reflexivity.
Qed.

Lemma getDexSwaps_run ethers_id dexAddress since till tokenAddress :
  fst (getDexSwaps Log get decodeLogs ethers_id chainId dexAddress since till
         tokenAddress st) =
  dexSwaps_of decodedLogs.
Proof.
  destruct (initialize_ready chainId st Hreach Hchain)
    as (st' & client & d & Hinit & Hclient & Hdecoder).
  unfold getDexSwaps, hbind, hlift.
  run_with Hinit. run_with Hclient. run_with Hget.
  run_with Hdecoder. run_with Hdecode. reflexivity.
Qed.

End Operations.

(** ** Null entries of a decoded batch *)

Lemma for_of_app {A S} (step : S → A → Throws S) xs ys : ∀ acc,
  for_of step acc (xs ++ ys) =
  tbind (for_of step acc xs) (λ acc', for_of step acc' ys).
Proof.
  induction xs as [|x xs IH]; intros acc; [done|].
  rewrite <- app_comm_cons, !for_of_cons.
  destruct (step acc x) as [e|acc']; [done|]. apply IH.
Qed.

Lemma for_of_skip {A S} (step : S → A → Throws S) x before after acc :
  (∀ acc', step acc' x = ok acc') →
  for_of step acc (before ++ x :: after) = for_of step acc (before ++ after).
Proof.
  intros Hskip. rewrite !for_of_app.
  destruct (for_of step acc before) as [e|acc']; [done|].
  simpl. by rewrite Hskip.
Qed.

Lemma dexSwaps_of_null decodedLogs :
  None ∈ decodedLogs → dexSwaps_of decodedLogs = throw TypeError.
Proof.
  unfold dexSwaps_of.
  induction decodedLogs as [|[log|] rest IH]; intros Hin.
  - by apply elem_of_nil in Hin.
  - apply elem_of_cons in Hin as [?|Hin]; [done|].
    simpl. by rewrite (IH Hin).
  - done.
Qed.

(** C4.  The loops of [getTokenBalances] and [getNFTBalances] skip a
    [null] entry: the result is that of the batch without it.  The
    projection of [getDexSwaps] does not: on any batch that holds a
    [null] it throws a TypeError, and so does the operation whenever
    the decoder returns such a batch, as it does for one unmatched
    log. *)
Theorem getDexSwaps_throws_on_null :
  (∀ before after,
     tokenBalances_of (before ++ None :: after) =
     tokenBalances_of (before ++ after))
  ∧ (∀ before after,
       nftBalances_of (before ++ None :: after) =
       nftBalances_of (before ++ after))
  ∧ (∀ decodedLogs,
       None ∈ decodedLogs → dexSwaps_of decodedLogs = throw TypeError)
  ∧ (∀ Log get decodeLogs ethers_id chainId dexAddress since till tokenAddress
       st (response : QueryResponse Log) decodedLogs,
       reachable st →
       is_Some (SUPPORTED_CHAINS !! chainId) →
       (∀ client query, get client query = ok response) →
       (∀ d, decodeLogs d (data_logs response) = ok decodedLogs) →
       None ∈ decodedLogs →
       fst (getDexSwaps Log get decodeLogs ethers_id chainId dexAddress
              since till tokenAddress st) = throw TypeError)
  ∧ fst (getDexSwaps unit one_log_service null_decoder (λ s, s)
           1 "0x7a250d5630b4cf539739df2c5dacb4c659f2488d" None None None
           (loaded None)) = throw TypeError.
Proof.
  split_and!.
  - intros before after. unfold tokenBalances_of. by rewrite for_of_skip.
  - intros before after. unfold nftBalances_of. by rewrite for_of_skip.
  - apply dexSwaps_of_null.
  - intros Log get decodeLogs ethers_id chainId dexAddress since till
      tokenAddress st response decodedLogs Hreach Hchain Hget Hdecode Hnull.
    rewrite (getDexSwaps_run Log get decodeLogs chainId st response decodedLogs)
      by assumption.
    by apply dexSwaps_of_null.
  - vm_compute. reflexivity.
Qed.

(** ** getTokenMetadata *)

Lemma array_map_ok {A B} (f : A → Throws B) xs :
  (∀ x, x ∈ xs → ∃ y, f x = ok y) →
  ∃ ys, array_map f xs = ok ys ∧ length ys = length xs.
Proof.
  induction xs as [|x xs IH]; intros Hall; [by exists []|].
  destruct (Hall x) as [y Hy]; [left|].
  destruct IH as (ys & Hys & Hlen); [intros x' Hx'; apply Hall; by right|].
  exists (y :: ys). simpl. rewrite Hy, Hys. simpl. by rewrite Hlen.
Qed.

Lemma array_map_length {A B} (f : A → Throws B) xs : ∀ ys,
  array_map f xs = ok ys → length ys = length xs.
Proof.
  induction xs as [|x xs IH]; simpl; intros ys.
  - by intros [= <-].
  - destruct (f x) as [e|y]; [done|]. simpl.
    destruct (array_map f xs) as [e|ys']; [done|]. simpl.
    intros [= <-]. simpl. by rewrite (IH ys').
Qed.

Lemma array_map_throws {A B} (f : A → Throws B) xs :
  (∃ x e, x ∈ xs ∧ f x = throw e) → ∃ e, array_map f xs = throw e.
Proof.
  induction xs as [|x xs IH]; intros (x' & e & Hin & Hx').
  - by apply elem_of_nil in Hin.
  - simpl. destruct (f x) as [e0|y] eqn:Hfx; [by exists e0|].
    apply elem_of_cons in Hin as [->|Hin].
    + rewrite Hfx in Hx'. discriminate.
    + destruct IH as [e' He']; [by exists x', e|]. rewrite He'. by exists e'.
Qed.

(** The field bound by the destructuring is one character long, so no
    case of the switch is taken. *)
Lemma decode_field_one_char c cleanOutput md :
  decode_field (Some (String c EmptyString)) cleanOutput md = ok md.
Proof.
  assert (∀ a b rest,
            String.eqb (String c EmptyString) (String a (String b rest)) = false)
    as Hshort by (intros; apply String.eqb_neq; congruence).
  unfold decode_field. by rewrite !Hshort.
Qed.

(** The callback leaves the four variables as they are, whatever the
    response holds. *)
Lemma process_response_keeps Log md index (response : QueryResponse Log) :
  (index < 4)%nat → process_response Log md index response = ok md.
Proof.
  intros Hindex. unfold process_response.
  assert (∃ c rest, map fst ERC20_INTERFACES !! index = Some (String c rest))
    as (c & rest & ->).
  { destruct index as [|[|[|[|]]]]; simpl; eauto. lia. }
  rewrite tbind_ok. cbn [destructure_first].
  destruct (first_output Log response) as [out|]; [|done].
  destruct (negb (String.eqb out "") && negb (String.eqb out "0x")); [|done].
  by rewrite decode_field_one_char.
Qed.

Lemma forEach_indexed_keeps Log responses : ∀ md index,
  (index + length responses ≤ 4)%nat →
  forEach_indexed Log md index responses = ok md.
Proof.
  induction responses as [|r rest IH]; intros md index Hlen; [done|].
  simpl in *. rewrite process_response_keeps, tbind_ok by lia.
  apply IH. lia.
Qed.

(** What [getTokenMetadata] does once [initialize] has returned. *)
Lemma getTokenMetadata_unfold Log get chainId tokenAddress st :
  is_Some (SUPPORTED_CHAINS !! chainId) →
  ∃ client,
    getClient chainId (snd (initialize chainId st)) =
      (ok client, snd (initialize chainId st))
    ∧ fst (getTokenMetadata Log get chainId tokenAddress st) =
      match array_map (get client) (metadata_queries tokenAddress) with
      | inr responses =>
          match forEach_indexed Log (default_metadata tokenAddress) 0 responses
          with
          | inr md => ok md
          | inl e => throw (MetadataFetchFailed e)
          end
      | inl e => throw (MetadataFetchFailed e)
      end.
Proof.
  intros Hchain.
  destruct (initialize_supported chainId st Hchain) as [Hok [client Hclient]].
  exists client. unfold getTokenMetadata, hbind, probe, getClient.
  generalize (metadata_queries tokenAddress) as queries. intros queries.
  destruct (initialize chainId st) as [r st1]. simpl in *. subst r.
  rewrite Hclient. simpl.
  change (λ query, get client query) with (get client).
  destruct (array_map (get client) queries) as [e|responses]; simpl; [done|].
  by destruct (forEach_indexed Log _ 0 responses).
Qed.

(** Whatever the probes return, returned metadata holds the defaults. *)
Lemma getTokenMetadata_always_default Log get chainId tokenAddress st md :
  fst (getTokenMetadata Log get chainId tokenAddress st) = ok md →
  md = default_metadata tokenAddress.
Proof.
  destruct (SUPPORTED_CHAINS !! chainId) as [config|] eqn:Hchain.
  - destruct (getTokenMetadata_unfold Log get chainId tokenAddress st)
      as (client & _ & ->); [eauto|].
    destruct (array_map (get client) (metadata_queries tokenAddress))
      as [e|responses] eqn:Hmap; [done|].
    apply array_map_length in Hmap. simpl in Hmap.
    rewrite forEach_indexed_keeps by (simpl; lia). by intros [= <-].
  - unfold getTokenMetadata, hbind.
    by rewrite (initialize_unsupported _ _ Hchain).
Qed.

(** C3.  A [symbol()] return that encodes "USDC" in the offset/length
    layout is decoded to "USDC" by the string case of the switch, but
    the operation never reaches that case: the field name it switches on
    is the first character of the interface key.  Whatever the probes
    return, returned metadata holds the default name and symbol; for
    the USDC payload the symbol is "UNKNOWN" (and the decimals 18,
    although the token answers 6). *)
Theorem getTokenMetadata_symbol_stays_default :
  decode_field (Some "symbol") (slice_from USDC_SYMBOL_OUTPUT 2)
    (default_metadata "0xa0b86991c6218b36c1d19d4a2e9eb0ce3606eb48") =
  ok (set_symbol "USDC"
        (default_metadata "0xa0b86991c6218b36c1d19d4a2e9eb0ce3606eb48"))
  ∧ destructure_first "symbol" = Some "s"
  ∧ (∀ Log get chainId tokenAddress st md,
       fst (getTokenMetadata Log get chainId tokenAddress st) = ok md →
       md_name md = "Unknown" ∧ md_symbol md = "UNKNOWN")
  ∧ fst (getTokenMetadata unit usdc_service 1
           "0xa0b86991c6218b36c1d19d4a2e9eb0ce3606eb48" (loaded None)) =
    ok {| md_address := "0xa0b86991c6218b36c1d19d4a2e9eb0ce3606eb48";
          md_name := "Unknown";
          md_symbol := "UNKNOWN";
          md_decimals := Num 18;
          md_totalSupply := 0 |}.
Proof.
  split_and!; [vm_compute; reflexivity..| |vm_compute; reflexivity].
  intros Log get chainId tokenAddress st md Hmd.
  by rewrite (getTokenMetadata_always_default _ _ _ _ _ _ Hmd).
Qed.

(** C8, as stated, fails: when the [decimals()] request is rejected the
    whole operation throws "Failed to fetch token metadata", so no
    metadata is returned and no field is left at its default. *)
Lemma getTokenMetadata_fails_when_a_probe_fails :
  fst (getTokenMetadata unit failing_decimals_service 1
         "0xa0b86991c6218b36c1d19d4a2e9eb0ce3606eb48" (loaded None)) =
  throw (MetadataFetchFailed (ServiceFailure "timeout"))
  ∧ ¬ ∃ md,
        fst (getTokenMetadata unit failing_decimals_service 1
               "0xa0b86991c6218b36c1d19d4a2e9eb0ce3606eb48" (loaded None)) =
        ok md
        ∧ md_decimals md = Num 18.
Proof.
  assert (fst (getTokenMetadata unit failing_decimals_service 1
                 "0xa0b86991c6218b36c1d19d4a2e9eb0ce3606eb48" (loaded None)) =
          throw (MetadataFetchFailed (ServiceFailure "timeout"))) as Hrun
    by (vm_compute; reflexivity).
  split; [exact Hrun|]. intros (md & Hmd & _). rewrite Hrun in Hmd. discriminate.
Qed.

(** C8, amended.  On a catalog chain, when the four requests are
    answered the operation returns, and a field whose response carries
    no output, an empty output or ["0x"] holds its default: name
    "Unknown", symbol "UNKNOWN", decimals 18, total supply 0.  Handling
    one response never throws, so a field that cannot be decoded does
    not fail the others.  When a request is rejected, the operation
    throws the fetch failure. *)
Theorem getTokenMetadata_defaults Log get chainId tokenAddress st :
  is_Some (SUPPORTED_CHAINS !! chainId) →
  ((∀ client query,
      query ∈ metadata_queries tokenAddress → ∃ r, get client query = ok r) →
   ∃ md,
     fst (getTokenMetadata Log get chainId tokenAddress st) = ok md
     ∧ ∀ client r,
         (get client (probe_query tokenAddress "0x06fdde03") = ok r →
          no_data r → md_name md = "Unknown")
         ∧ (get client (probe_query tokenAddress "0x95d89b41") = ok r →
            no_data r → md_symbol md = "UNKNOWN")
         ∧ (get client (probe_query tokenAddress "0x313ce567") = ok r →
            no_data r → md_decimals md = Num 18)
         ∧ (get client (probe_query tokenAddress "0x18160ddd") = ok r →
            no_data r → md_totalSupply md = 0))
  ∧ (∀ md index r,
       (index < 4)%nat → ∃ md', process_response Log md index r = ok md')
  ∧ ((∃ query,
        query ∈ metadata_queries tokenAddress
        ∧ ∀ client, ∃ e, get client query = throw e) →
     ∃ e, fst (getTokenMetadata Log get chainId tokenAddress st) =
          throw (MetadataFetchFailed e)).
Proof.
  intros Hchain.
  destruct (getTokenMetadata_unfold Log get chainId tokenAddress st Hchain)
    as (client & _ & Hrun).
  split_and!.
  - intros Hanswered.
    destruct (array_map_ok (get client) (metadata_queries tokenAddress))
      as (responses & Hmap & Hlen); [by intros q Hq; apply Hanswered|].
    rewrite Hrun, Hmap. cbn [ok].
    rewrite forEach_indexed_keeps by (rewrite Hlen; simpl; lia).
    exists (default_metadata tokenAddress). split; [done|].
    intros c r. by split_and!.
  - intros md index r Hindex. exists md. by apply process_response_keeps.
  - intros (query & Hin & Hfail).
    destruct (array_map_throws (get client) (metadata_queries tokenAddress))
      as [e He].
    { destruct (Hfail client) as [e He]. by exists query, e. }
    exists e. rewrite Hrun, He. reflexivity.
Qed.

(** Ethereum, a token whose [name()] and [totalSupply()] return no data. *)
Lemma getTokenMetadata_defaults_witness :
  ∃ md,
    fst (getTokenMetadata unit usdc_service 1
           "0xa0b86991c6218b36c1d19d4a2e9eb0ce3606eb48" (loaded None)) = ok md
    ∧ md_name md = "Unknown" ∧ md_totalSupply md = 0.
Proof.
  destruct (getTokenMetadata_defaults unit usdc_service 1
              "0xa0b86991c6218b36c1d19d4a2e9eb0ce3606eb48" (loaded None))
    as (Hanswered & _ & _).
  - eexists. vm_compute. reflexivity.
  - destruct Hanswered as (md & Hmd & Hfields).
    + intros client query _. unfold usdc_service.
      destruct (String.eqb _ _); [eauto|]. destruct (String.eqb _ _); eauto.
    + exists md. split; [exact Hmd|].
      destruct (Hfields {| client_id := 0; client_url := ""; bearerToken := "" |}
                  (respond (Some "0x"))) as (Hname & _ & _ & Hsupply).
      split.
      * apply Hname; [reflexivity|]. right. right. reflexivity.
      * apply Hsupply; [reflexivity|]. right. right. reflexivity.
Defined.

(** ** serializeBigInts *)

(** Induction over a structure, with the hypothesis on every item of an
    array and every value of an object. *)
Lemma Any_ind (P : Any → Prop) :
  (∀ z, P (ABigInt z)) →
  (∀ s, P (AString s)) →
  (∀ p, P (APrimitive p)) →
  (∀ items, Forall P items → P (AArray items)) →
  (∀ entries, Forall (λ entry, P (snd entry)) entries → P (AObject entries)) →
  ∀ v, P v.
Proof.
  intros Hbig Hstr Hprim Harr Hobj.
  fix IH 1. intros [z|s|p|items|entries].
  - apply Hbig.
  - apply Hstr.
  - apply Hprim.
  - apply Harr. induction items as [|item items IHitems]; constructor.
    + apply IH.
    + apply IHitems.
  - apply Hobj. induction entries as [|[k v] entries IHentries]; constructor.
    + apply IH.
    + apply IHentries.
Qed.


Lemma distinct_cons k keys :
  distinct (k :: keys) = true ↔ (k ∉ keys) ∧ distinct keys = true.
Proof.
  simpl. rewrite andb_true_iff, negb_true_iff.
  assert (existsb (String.eqb k) keys = false ↔ k ∉ keys) as ->; [|done].
  induction keys as [|k' keys IH]; simpl.
  - split; [intros _; apply not_elem_of_nil | done].
  - rewrite orb_false_iff, IH, not_elem_of_cons, String.eqb_neq. tauto.
Qed.

Lemma own_proto_false keys : own_proto keys = false ↔ "__proto__" ∉ keys.
Proof.
  unfold own_proto. induction keys as [|k keys IH]; cbn [existsb].
  - split; [intros _; apply not_elem_of_nil | done].
  - rewrite orb_false_iff, IH, not_elem_of_cons, String.eqb_neq. tauto.
Qed.

Lemma assign_ordinary newObj key value :
  key ≠ "__proto__" → assign newObj key value = map_set newObj key value.
Proof.
  intros Hkey. unfold assign. by destruct (String.eqb_spec key "__proto__").
Qed.

(** The loop that fills [newObj]: with distinct keys, none of them
    ["__proto__"], every entry is appended, in order. *)
Lemma fill_newObj (f : Any → Any) entries : ∀ newObj : JsMap Any,
  distinct (map fst entries) = true →
  own_proto (map fst entries) = false →
  (∀ k, k ∈ map fst entries → k ∉ map_keys newObj) →
  fold_left (λ (acc : JsMap Any) (entry : string * Any),
               assign acc (fst entry) (f (snd entry))) entries newObj =
  newObj ++ map (λ entry, (fst entry, f (snd entry))) entries.
Proof.
  induction entries as [|[k v] entries IH];
    intros newObj Hdistinct Hproto Hfresh.
  - simpl. by rewrite app_nil_r.
  - change (map fst ((k, v) :: entries)) with (k :: map fst entries) in *.
    apply distinct_cons in Hdistinct as [Hk Hdistinct].
    apply own_proto_false, not_elem_of_cons in Hproto as [Hne Hproto].
    apply own_proto_false in Hproto.
    assert (assign newObj k (f v) = newObj ++ [(k, f v)]) as Hset.
    { rewrite assign_ordinary by done.
      assert (k ∉ map_keys newObj) as Hnew by (apply Hfresh; left).
      clear -Hnew. induction newObj as [|[k' v'] newObj IHn]; [done|].
      simpl in *. apply not_elem_of_cons in Hnew as [Hne Hnew].
      destruct (String.eqb_spec k' k); [congruence|]. by rewrite IHn. }
    simpl. rewrite Hset, IH, <- app_assoc; [done|done|done|].
    intros k' Hk'. unfold map_keys. rewrite map_app. simpl.
    rewrite not_elem_of_app, not_elem_of_cons. split_and!.
    + apply Hfresh. by right.
    + intros ->. done.
    + apply not_elem_of_nil.
Qed.




(** * Further properties *)

(** ** The registry over time *)

Lemma initialize_keeps_client chainId st c client :
  clients st !! c = Some client →
  clients (snd (initialize chainId st)) !! c = Some client.
Proof.
  intros Hc. unfold initialize.
  destruct (SUPPORTED_CHAINS !! chainId) as [config|]; [|done].
  destruct (clients st !! chainId) as [cached|] eqn:Hcached; [done|].
  assert (chainId ≠ c) as Hne by congruence.
  cbn [decoder]. destruct (decoder st); cbn [snd clients];
    by rewrite lookup_insert_ne.
Qed.

Lemma initialize_keeps_decoder chainId st d :
  decoder st = Some d → decoder (snd (initialize chainId st)) = Some d.
Proof.
  intros Hd. unfold initialize.
  destruct (SUPPORTED_CHAINS !! chainId) as [config|]; [|done].
  destruct (clients st !! chainId) as [cached|]; [done|].
  cbn [decoder]. by rewrite Hd.
Qed.

Lemma initialize_keeps_api_key chainId st :
  HYPERSYNC_API_KEY (snd (initialize chainId st)) = HYPERSYNC_API_KEY st.
Proof.
  unfold initialize.
  destruct (SUPPORTED_CHAINS !! chainId) as [config|]; [|done].
  destruct (clients st !! chainId) as [cached|]; [done|].
  cbn [decoder]. by destruct (decoder st).
Qed.

(** A client found after [initialize] was there before, or is the one
    just made for the chain. *)
Lemma initialize_new_client chainId st c client :
  clients (snd (initialize chainId st)) !! c = Some client →
  clients st !! c = Some client
  ∨ (c = chainId ∧ clients st !! chainId = None
     ∧ ∃ config, SUPPORTED_CHAINS !! chainId = Some config
               ∧ client_url client = url config
               ∧ bearerToken client = api_key_or_default st).
Proof.
  unfold initialize.
  destruct (SUPPORTED_CHAINS !! chainId) as [config|] eqn:Hconfig; [|by left].
  destruct (clients st !! chainId) as [cached|] eqn:Hcached; [by left|].
  assert (<[chainId:={| client_id := constructed st; client_url := url config;
                        bearerToken := api_key_or_default st |}]> (clients st)
            !! c = Some client →
          clients st !! c = Some client
          ∨ (c = chainId ∧ None = @None HypersyncClient
             ∧ ∃ config0, Some config = Some config0
                 ∧ client_url client = url config0
                 ∧ bearerToken client = api_key_or_default st)) as Hcase.
  { rewrite lookup_insert. case_decide; subst.
    - intros [= <-]. right. split_and!; [done..|]. by exists config.
    - by left. }
  cbn [decoder]. destruct (decoder st); cbn [snd clients]; exact Hcase.
Qed.

Lemma reachable_decoder_signatures st d :
  reachable st → decoder st = Some d → signatures d = EVENT_SIGNATURES.
Proof.
  induction 1 as [api_key|chainId st Hreach IH]; [done|].
  unfold initialize.
  destruct (SUPPORTED_CHAINS !! chainId) as [config|]; [|exact IH].
  destruct (clients st !! chainId) as [cached|]; [exact IH|].
  cbn [decoder]. destruct (decoder st) as [d0|] eqn:Hd0; cbn [snd decoder].
  - intros [= <-]. by apply IH.
  - by intros [= <-].
Qed.

(** X1.  In every state the class can reach, a cached client belongs to
    a chain of the catalog, points at that chain's URL, carries the
    configured API key or the default one, and the decoder exists with
    the event signatures of [initialize]. *)
Theorem cached_clients_follow_catalog st c client :
  reachable st →
  clients st !! c = Some client →
  (∃ config, SUPPORTED_CHAINS !! c = Some config
           ∧ client_url client = url config)
  ∧ bearerToken client = api_key_or_default st
  ∧ ∃ d, decoder st = Some d ∧ signatures d = EVENT_SIGNATURES.
Proof.
  intros Hreach Hc.
  assert (∃ d, decoder st = Some d) as [d Hd].
  { destruct (reachable_invariant st Hreach c) as [_ [d Hd]]; eauto. }
  assert ((∃ config, SUPPORTED_CHAINS !! c = Some config
                   ∧ client_url client = url config)
          ∧ bearerToken client = api_key_or_default st) as [Hcat Htok].
  { clear d Hd. revert c client Hc.
    induction Hreach as [api_key|chainId st Hreach IH]; intros c client Hc.
    - simpl in Hc. by rewrite lookup_empty in Hc.
    - assert (api_key_or_default (snd (initialize chainId st)) =
              api_key_or_default st) as ->
        by (unfold api_key_or_default; by rewrite initialize_keeps_api_key).
      destruct (initialize_new_client _ _ _ _ Hc)
        as [Hold|(-> & _ & config & Hconfig & Hurl & Htoken)].
      + by apply IH.
      + split; [by exists config|done]. }
  split_and!; [done..|]. exists d. split; [done|].
  by apply (reachable_decoder_signatures st).
Qed.

(** Ethereum initialized from the class as loaded, with an API key. *)
Lemma cached_clients_follow_catalog_witness :
  (∃ config, SUPPORTED_CHAINS !! 1 = Some config
           ∧ "https://eth.hypersync.xyz" = url config)
  ∧ "secret" = api_key_or_default (snd (initialize 1 (loaded (Some "secret"))))
  ∧ ∃ d, decoder (snd (initialize 1 (loaded (Some "secret")))) = Some d
       ∧ signatures d = EVENT_SIGNATURES.
Proof.
  apply (cached_clients_follow_catalog
           (snd (initialize 1 (loaded (Some "secret")))) 1
           {| client_id := 0; client_url := "https://eth.hypersync.xyz";
              bearerToken := "secret" |}).
  - apply reachable_initialize, reachable_loaded.
  - vm_compute. reflexivity.
Defined.

Lemma initialize_all_snoc chainIds chainId st :
  initialize_all (chainIds ++ [chainId]) st =
  snd (initialize chainId (initialize_all chainIds st)).
Proof. unfold initialize_all. by rewrite fold_left_app. Qed.

(** X2.  From the class as loaded, after any sequence of [initialize]
    calls, [getClient] returns a handle exactly for the catalog chains
    that were among the calls, and throws the not-initialized error for
    every other chain id; it never writes the static fields. *)
Theorem getClient_succeeds_iff_initialized api_key chainIds c :
  let st := initialize_all chainIds (loaded api_key) in
  snd (getClient c st) = st
  ∧ ((∃ client, fst (getClient c st) = ok client) ↔
     c ∈ chainIds ∧ is_Some (SUPPORTED_CHAINS !! c))
  ∧ (¬ (c ∈ chainIds ∧ is_Some (SUPPORTED_CHAINS !! c)) →
     fst (getClient c st) = throw (ClientNotInitialized c)).
Proof.
  intros st.
  assert (is_Some (clients st !! c) ↔
          c ∈ chainIds ∧ is_Some (SUPPORTED_CHAINS !! c)) as Hdom.
  { unfold st. clear st.
    induction chainIds as [|chainId chainIds IH] using rev_ind.
    - simpl. rewrite lookup_empty. split.
      + by intros [? ?].
      + intros [Hin _]. by apply elem_of_nil in Hin.
    - rewrite initialize_all_snoc, elem_of_app, list_elem_of_singleton.
      set (st := initialize_all chainIds (loaded api_key)) in *. split.
      + intros [client Hclient].
        destruct (initialize_new_client _ _ _ _ Hclient)
          as [Hold|(-> & _ & config & Hconfig & _)].
        * destruct IH as [IH _]. destruct IH as [? ?]; [eauto|]. tauto.
        * split; [by right|by exists config].
      + intros [[Hin| ->] Hchain].
        * destruct IH as [_ IH]. destruct IH as [client Hclient]; [done|].
          exists client. by apply initialize_keeps_client.
        * by apply initialize_supported. }
  split_and!.
  - unfold getClient. by destruct (clients st !! c).
  - rewrite <- Hdom. unfold getClient.
    destruct (clients st !! c) as [client|]; simpl.
    + split; eauto.
    + split; [by intros [? ?]|by intros [? ?]].
  - rewrite <- Hdom. unfold getClient.
    destruct (clients st !! c) as [client|]; simpl; [|done].
    intros Hno. exfalso. apply Hno. eauto.
Qed.

(** Base and an unknown chain were asked for; Polygon was not. *)
Lemma getClient_succeeds_iff_initialized_witness :
  fst (getClient 137 (initialize_all [8453; 5] (loaded None))) =
  throw (ClientNotInitialized 137).
Proof.
  apply (getClient_succeeds_iff_initialized None [8453; 5] 137).
  intros [Hin _].
  apply elem_of_cons in Hin as [Hin|Hin]; [discriminate|].
  apply elem_of_cons in Hin as [Hin|Hin]; [discriminate|].
  by apply elem_of_nil in Hin.
Defined.

(** X3.  A handle, once cached, and the decoder, once built, stay the
    same through any later [initialize] calls, whatever chains they name
    and whether they fail or not. *)
Theorem initialize_never_replaces chainIds st :
  (∀ c client,
     clients st !! c = Some client →
     clients (initialize_all chainIds st) !! c = Some client)
  ∧ (∀ d, decoder st = Some d →
          decoder (initialize_all chainIds st) = Some d).
Proof.
  induction chainIds as [|chainId chainIds [IHc IHd]] using rev_ind;
    [done|].
  rewrite initialize_all_snoc. split.
  - intros c client Hc. by apply initialize_keeps_client, IHc.
  - intros d Hd. by apply initialize_keeps_decoder, IHd.
Qed.

(** The handle of Ethereum survives calls for Base, an unknown chain and
    Ethereum again. *)
Lemma initialize_never_replaces_witness :
  clients (initialize_all [8453; 5; 1] (snd (initialize 1 (loaded None)))) !! 1 =
  Some {| client_id := 0; client_url := "https://eth.hypersync.xyz";
          bearerToken := "your_api_key" |}.
Proof.
  apply (proj1 (initialize_never_replaces [8453; 5; 1]
                  (snd (initialize 1 (loaded None))))).
  vm_compute. reflexivity.
Defined.

(** ** What the operations write and when they fail *)

Lemma read_only_hret {A} (a : A) : read_only (hret a).
Proof. done. Qed.

Lemma read_only_hlift {A} (c : Throws A) : read_only (hlift c).
Proof. done. Qed.

Lemma read_only_getClient chainId : read_only (getClient chainId).
Proof. intros st. unfold getClient. by destruct (clients st !! chainId). Qed.

Lemma read_only_getDecoder : read_only getDecoder.
Proof. intros st. unfold getDecoder. by destruct (decoder st). Qed.

Lemma read_only_hbind {A B} (c : Helper A) (k : A → Helper B) :
  read_only c → (∀ a, read_only (k a)) → read_only (hbind c k).
Proof.
  intros Hc Hk st. unfold hbind. specialize (Hc st).
  destruct (c st) as [[e|a] st']; simpl in *; subst; [done|]. apply Hk.
Qed.

(** After [initialize], a read-only continuation leaves the state that
    [initialize] made. *)
Lemma after_initialize {A} chainId (k : Helper A) st :
  read_only k →
  snd (hbind (initialize chainId) (λ _, k) st) = snd (initialize chainId st).
Proof.
  intros Hk. unfold hbind.
  destruct (initialize chainId st) as [[e|[]] st']; simpl; [done|]. apply Hk.
Qed.

Lemma unsupported_throws {A} chainId (k : Helper A) st :
  SUPPORTED_CHAINS !! chainId = None →
  hbind (initialize chainId) (λ _, k) st =
  (throw (ChainNotSupported chainId), st).
Proof.
  intros Hnone. unfold hbind. by rewrite (initialize_unsupported _ _ Hnone).
Qed.

Ltac read_only_steps :=
  repeat first
    [ apply read_only_hret | apply read_only_hlift
    | apply read_only_getClient | apply read_only_getDecoder
    | apply read_only_hbind; [|intros ?] ].

Section Frame.
Context (Log : Type).
Context (get : HypersyncClient → Query → Throws (QueryResponse Log)).
Context (decodeLogs : Decoder → list Log → Throws (list (option DecodedEvent))).
Context (ethers_id : string → string).

(** X4.  Every operation leaves the static fields as its opening
    [initialize] made them, whatever the service and the decoder answer
    and whether the operation returns or throws: nothing but
    [initialize] writes the registry. *)
Theorem operations_write_through_initialize chainId st :
  (∀ wallet since,
     snd (getTokenBalances Log get decodeLogs chainId wallet since st) =
     snd (initialize chainId st))
  ∧ (∀ wallet since,
       snd (getNFTBalances Log get decodeLogs chainId wallet since st) =
       snd (initialize chainId st))
  ∧ (∀ dex since till tokenAddress,
       snd (getDexSwaps Log get decodeLogs ethers_id chainId dex since till
              tokenAddress st) = snd (initialize chainId st))
  ∧ (∀ tokenAddress,
       snd (getTokenMetadata Log get chainId tokenAddress st) =
       snd (initialize chainId st))
  ∧ (∀ contract signature since till,
       snd (getContractEvents Log get ethers_id chainId contract signature
              since till st) = snd (initialize chainId st))
  ∧ (∀ first last,
       snd (getBlockRange Log get chainId first last st) =
       snd (initialize chainId st))
  ∧ snd (getLatestBlockNumber Log get chainId st) = snd (initialize chainId st)
  ∧ (∀ pool since till,
       snd (getLiquidityPoolStats Log get chainId pool since till st) =
       snd (initialize chainId st)).
Proof.
  split_and!; intros; apply after_initialize; read_only_steps.
  intros st'. by destruct (probe Log get chainId tokenAddress st').
Qed.

(** X5.  On a chain id outside the catalog every operation throws the
    unsupported-chain error and leaves the static fields untouched; the
    service is not consulted, since the outcome is the same for every
    service. *)
Theorem operations_reject_unknown_chain chainId st :
  SUPPORTED_CHAINS !! chainId = None →
  (∀ wallet since,
     getTokenBalances Log get decodeLogs chainId wallet since st =
     (throw (ChainNotSupported chainId), st))
  ∧ (∀ wallet since,
       getNFTBalances Log get decodeLogs chainId wallet since st =
       (throw (ChainNotSupported chainId), st))
  ∧ (∀ dex since till tokenAddress,
       getDexSwaps Log get decodeLogs ethers_id chainId dex since till
         tokenAddress st = (throw (ChainNotSupported chainId), st))
  ∧ (∀ tokenAddress,
       getTokenMetadata Log get chainId tokenAddress st =
       (throw (ChainNotSupported chainId), st))
  ∧ (∀ contract signature since till,
       getContractEvents Log get ethers_id chainId contract signature
         since till st = (throw (ChainNotSupported chainId), st))
  ∧ (∀ first last,
       getBlockRange Log get chainId first last st =
       (throw (ChainNotSupported chainId), st))
  ∧ getLatestBlockNumber Log get chainId st =
    (throw (ChainNotSupported chainId), st)
  ∧ (∀ pool since till,
       getLiquidityPoolStats Log get chainId pool since till st =
       (throw (ChainNotSupported chainId), st)).
Proof.
  intros Hnone. split_and!; intros; by apply unsupported_throws.
Qed.

End Frame.

(** Chain 5, with a service that would answer. *)
Lemma operations_reject_unknown_chain_witness :
  getLatestBlockNumber unit one_log_service 5 (loaded None) =
  (throw (ChainNotSupported 5), loaded None).
Proof.
  apply (operations_reject_unknown_chain unit one_log_service null_decoder
           (λ s, s) 5 (loaded None)).
  vm_compute. reflexivity.
Defined.

(** On a catalog chain [initialize] returns and [getClient] finds the
    handle, in any state. *)
Lemma initialize_then_getClient chainId st :
  is_Some (SUPPORTED_CHAINS !! chainId) →
  ∃ st' client,
    initialize chainId st = (ok tt, st')
    ∧ getClient chainId st' = (ok client, st')
    ∧ clients st' !! chainId = Some client.
Proof.
  intros Hchain.
  destruct (initialize_supported chainId st Hchain) as [Hok [client Hclient]].
  exists (snd (initialize chainId st)), client. split_and!; [|by unfold getClient; rewrite Hclient|done].
  destruct (initialize chainId st) as [r st']. simpl in Hok. by subst r.
Qed.

Section Wallets.
Context (Log : Type).
Context (get : HypersyncClient → Query → Throws (QueryResponse Log)).
Context (decodeLogs : Decoder → list Log → Throws (list (option DecodedEvent))).

(** X6.  On a catalog chain, a wallet address that [zeroPadValue]
    rejects (no [0x] prefix, a character that is not a hex digit, an odd
    number of digits, more than 32 bytes) makes [getTokenBalances] and
    [getNFTBalances] throw the argument error whatever the service would
    answer; the client of the chain has been cached all the same. *)
Theorem invalid_wallet_rejected_after_initialize chainId wallet since st :
  is_Some (SUPPORTED_CHAINS !! chainId) →
  zeroPadValue (toLowerCase wallet) 32 = throw InvalidArgument →
  fst (getTokenBalances Log get decodeLogs chainId wallet since st) =
    throw InvalidArgument
  ∧ fst (getNFTBalances Log get decodeLogs chainId wallet since st) =
    throw InvalidArgument
  ∧ is_Some (clients
               (snd (getTokenBalances Log get decodeLogs chainId wallet since st))
             !! chainId).
Proof.
  intros Hchain Hpad.
  destruct (initialize_then_getClient chainId st Hchain)
    as (st' & client & Hinit & _ & Hclient).
  split_and!.
  - unfold getTokenBalances, hbind, hlift, tokenBalances_query.
    run_with Hinit. by rewrite Hpad.
  - unfold getNFTBalances, hbind, hlift, nftBalances_query.
    run_with Hinit. by rewrite Hpad.
  - unfold getTokenBalances, hbind, hlift, tokenBalances_query.
    run_with Hinit. rewrite Hpad. simpl. eauto.
Qed.

(** X7.  The wallet address is lowercased before anything else is done
    with it, so an address and its lowercase form (a checksummed and a
    plain address, say) give the same outcome and the same state in
    [getTokenBalances] and in [getNFTBalances]. *)
Theorem wallet_case_is_irrelevant chainId wallet since st :
  getTokenBalances Log get decodeLogs chainId wallet since st =
  getTokenBalances Log get decodeLogs chainId (toLowerCase wallet) since st
  ∧ getNFTBalances Log get decodeLogs chainId wallet since st =
    getNFTBalances Log get decodeLogs chainId (toLowerCase wallet) since st.
Proof.
  unfold getTokenBalances, getNFTBalances, tokenBalances_query,
    nftBalances_query.
  by rewrite toLowerCase_idemp.
Qed.

End Wallets.

(** A name instead of an address, on Ethereum. *)
Lemma invalid_wallet_rejected_after_initialize_witness :
  fst (getTokenBalances unit one_log_service null_decoder 1 "vitalik.eth"
         None (loaded None)) = throw InvalidArgument
  ∧ fst (getNFTBalances unit one_log_service null_decoder 1 "vitalik.eth"
           None (loaded None)) = throw InvalidArgument
  ∧ is_Some (clients
               (snd (getTokenBalances unit one_log_service null_decoder 1
                       "vitalik.eth" None (loaded None))) !! 1).
Proof.
  apply (invalid_wallet_rejected_after_initialize unit one_log_service
           null_decoder 1 "vitalik.eth" None (loaded None)).
  - eexists. vm_compute. reflexivity.
  - vm_compute. reflexivity.
Defined.

(** X8.  For every wallet and starting block for which the queries are
    built, the first log filter of the [getNFTBalances] query is the
    log filter of the [getTokenBalances] query, and both start at the
    same block: every log that [getTokenBalances] asks for is also
    asked for, and counted as an ERC721 transfer, by [getNFTBalances]. *)
Theorem nft_query_contains_token_query wallet since query :
  tokenBalances_query wallet since = ok query →
  ∃ nftQuery filter erc1155Filter,
    nftBalances_query wallet since = ok nftQuery
    ∧ fromBlock nftQuery = fromBlock query
    ∧ toBlock nftQuery = toBlock query
    ∧ logs query = Some [filter]
    ∧ logs nftQuery = Some [filter; erc1155Filter].
Proof.
  unfold tokenBalances_query, nftBalances_query.
  destruct (zeroPadValue (toLowerCase wallet) 32) as [e|padded]; [done|].
  intros [= <-]. by eexists _, _, _.
Qed.

(** A lowercase address from block 100 on. *)
Lemma nft_query_contains_token_query_witness :
  ∃ query nftQuery filter erc1155Filter,
    tokenBalances_query "0xabcdef0123456789abcdef0123456789abcdef01"
      (Some 100) = ok query
    ∧ nftBalances_query "0xabcdef0123456789abcdef0123456789abcdef01"
        (Some 100) = ok nftQuery
    ∧ logs query = Some [filter]
    ∧ logs nftQuery = Some [filter; erc1155Filter].
Proof.
  eexists.
  destruct (nft_query_contains_token_query
              "0xabcdef0123456789abcdef0123456789abcdef01" (Some 100) _
              eq_refl) as (nftQuery & filter & other & H1 & _ & _ & H2 & H3).
  exists nftQuery, filter, other. split_and!; [reflexivity|assumption..].
Defined.

(** ** What the operations return *)

Section Answers.
Context (Log : Type).
Context (get : HypersyncClient → Query → Throws (QueryResponse Log)).
Context (decodeLogs : Decoder → list Log → Throws (list (option DecodedEvent))).
Context (ethers_id : string → string).


(** X10.  On a catalog chain, when the service answers, the three
    pass-through operations hand the answer on unchanged:
    [getLatestBlockNumber] returns the archive height of the response to
    its query, [getContractEvents] and [getBlockRange] return the data of
    the response to theirs. *)
Theorem pass_through_operations chainId st :
  is_Some (SUPPORTED_CHAINS !! chainId) →
  (∀ response,
     (∀ client, get client latestBlock_query = ok response) →
     fst (getLatestBlockNumber Log get chainId st) =
     ok (archiveHeight response))
  ∧ (∀ contract signature since till response,
       (∀ client,
          get client
            (contractEvents_query ethers_id contract signature since till) =
          ok response) →
       fst (getContractEvents Log get ethers_id chainId contract signature
              since till st) = ok (response_data response))
  ∧ (∀ first last response,
       (∀ client, get client (blockRange_query first last) = ok response) →
       fst (getBlockRange Log get chainId first last st) =
       ok (response_data response)).
Proof.
  intros Hchain.
  destruct (initialize_then_getClient chainId st Hchain)
    as (st' & client & Hinit & Hclient & _).
  split_and!.
  - intros response Hget. unfold getLatestBlockNumber, hbind, hlift.
    run_with Hinit. run_with Hclient. by rewrite Hget.
  - intros contract signature since till response Hget.
    unfold getContractEvents, hbind, hlift.
    run_with Hinit. run_with Hclient. by rewrite Hget.
  - intros first last response Hget. unfold getBlockRange, hbind, hlift.
    run_with Hinit. run_with Hclient. by rewrite Hget.
Qed.

(** X11.  On a catalog chain, when the service answers its query at
    all, [getLiquidityPoolStats] returns the same record whatever the
    answer holds: the pool address it was given, ["0x"] for both tokens,
    zero reserves and supply, no swaps and a volume of 0. *)
Theorem pool_stats_ignore_the_response chainId pool since till st :
  is_Some (SUPPORTED_CHAINS !! chainId) →
  (∀ client, ∃ response,
     get client (poolStats_query pool since till) = ok response) →
  fst (getLiquidityPoolStats Log get chainId pool since till st) =
  ok {| pool_address := pool; token0 := "0x"; token1 := "0x";
        reserves := (0, 0); pool_totalSupply := 0; swaps := [];
        volumeUSD := 0 |}.
Proof.
  intros Hchain Hget.
  destruct (initialize_then_getClient chainId st Hchain)
    as (st' & client & Hinit & Hclient & _).
  destruct (Hget client) as [response Hresponse].
  unfold getLiquidityPoolStats, hbind, hlift.
  run_with Hinit. run_with Hclient. by rewrite Hresponse.
Qed.

(** X12.  On a catalog chain, in a state the class can reach, when the
    service answers and the decoder matches every log, [getDexSwaps]
    returns one record per log, in order: the transaction hash, block
    number and timestamp of the log, the emitting address as both
    [tokenIn] and [tokenOut], zero amounts and ["0x"] as sender and
    recipient, whatever the log holds and whatever [tokenAddress] filter
    was asked for. *)
Theorem dex_swaps_are_placeholders chainId dex since till tokenAddress st
    (response : QueryResponse Log) decoded :
  reachable st →
  is_Some (SUPPORTED_CHAINS !! chainId) →
  (∀ client query, get client query = ok response) →
  (∀ d, decodeLogs d (data_logs response) = ok (map Some decoded)) →
  fst (getDexSwaps Log get decodeLogs ethers_id chainId dex since till
         tokenAddress st) =
  ok (map (λ log,
             {| swap_transactionHash := transactionHash log;
                swap_blockNumber := blockNumber log;
                swap_timestamp := timestamp log;
                tokenIn := address log;
                tokenOut := address log;
                amountIn := 0;
                amountOut := 0;
                sender := "0x";
                recipient := "0x" |}) decoded).
Proof.
  intros Hreach Hchain Hget Hdecode.
  rewrite (getDexSwaps_run Log get decodeLogs chainId st response
             (map Some decoded)) by assumption.
  unfold dexSwaps_of. clear. induction decoded as [|log decoded IH]; [done|].
  simpl. by rewrite IH.
Qed.

End Answers.


(** Ethereum, a service reporting one log at height 0. *)
Lemma pass_through_operations_witness :
  fst (getLatestBlockNumber unit one_log_service 1 (loaded None)) = ok 0.
Proof.
  destruct (pass_through_operations unit one_log_service (λ s, s) 1
              (loaded None)) as (Hlatest & _ & _).
  - eexists. vm_compute. reflexivity.
  - apply (Hlatest {| data_logs := [tt]; data_transactions := None;
                      archiveHeight := 0 |}). reflexivity.
Defined.

Lemma pool_stats_ignore_the_response_witness :
  fst (getLiquidityPoolStats unit one_log_service 1
         "0x88e6a0c2ddd26feeb64f039a2c41296fcb3f5640" None None (loaded None)) =
  ok {| pool_address := "0x88e6a0c2ddd26feeb64f039a2c41296fcb3f5640";
        token0 := "0x"; token1 := "0x"; reserves := (0, 0);
        pool_totalSupply := 0; swaps := []; volumeUSD := 0 |}.
Proof.
  apply (pool_stats_ignore_the_response unit one_log_service 1).
  - eexists. vm_compute. reflexivity.
  - intros client. eexists. reflexivity.
Defined.

(** Two swap logs on Ethereum, with a token filter. *)
Lemma dex_swaps_are_placeholders_witness :
  fst (getDexSwaps unit one_log_service
         (λ _ _, ok (map Some [transfer_event "0xA" 100; erc721_event "0xB" 5]))
         (λ s, s) 1 "0x7a250d5630b4cf539739df2c5dacb4c659f2488d" None None
         (Some "0xA") (loaded None)) =
  ok [ {| swap_transactionHash := "0x01"; swap_blockNumber := 1;
          swap_timestamp := 1; tokenIn := "0xA"; tokenOut := "0xA";
          amountIn := 0; amountOut := 0; sender := "0x"; recipient := "0x" |};
       {| swap_transactionHash := "0x02"; swap_blockNumber := 2;
          swap_timestamp := 2; tokenIn := "0xB"; tokenOut := "0xB";
          amountIn := 0; amountOut := 0; sender := "0x"; recipient := "0x" |} ].
Proof.
  apply (dex_swaps_are_placeholders unit one_log_service
           (λ _ _, ok (map Some [transfer_event "0xA" 100; erc721_event "0xB" 5]))
           (λ s, s) 1 "0x7a250d5630b4cf539739df2c5dacb4c659f2488d" None None
           (Some "0xA") (loaded None)
           {| data_logs := [tt]; data_transactions := None;
              archiveHeight := 0 |}
           [transfer_event "0xA" 100; erc721_event "0xB" 5]).
  - apply reachable_loaded.
  - eexists. vm_compute. reflexivity.
  - reflexivity.
  - reflexivity.
Defined.

(** ** More on the loop of getTokenBalances *)

(** The rows of a batch of decoded transfers, by their content. *)
Lemma tokenBalances_rows decodedLogs :
  Forall decoded_transfer decodedLogs →
  ∃ m, tokenBalances_of decodedLogs =
       ok (map (λ '(t, b), {| token := t; balance := b |}) m)
     ∧ NoDup (map_keys m)
     ∧ ∀ t, (emitted_by t decodedLogs →
             map_get m t = Some (received t decodedLogs))
          ∧ (¬ emitted_by t decodedLogs → map_get m t = None).
Proof.
  intros Hshape.
  destruct (tokenBalances_loop decodedLogs [] Hshape) as (m & Hm & Hnd & Hget);
    [apply NoDup_nil_2|].
  exists m. unfold tokenBalances_of. rewrite Hm. split_and!; [done..|].
  intros t. by apply (Hget t).
Qed.

Lemma received_not_emitted t decodedLogs :
  ¬ emitted_by t decodedLogs → received t decodedLogs = 0.
Proof.
  induction decodedLogs as [|[log|] rest IH]; intros Hno; [done|..].
  - rewrite emitted_by_cons_Some in Hno. simpl.
    destruct (String.eqb_spec (address log) t); [tauto|].
    rewrite IH by tauto. lia.
  - rewrite emitted_by_cons_None in Hno. simpl. by apply IH.
Qed.

Lemma received_app t batch1 batch2 :
  received t (batch1 ++ batch2) = received t batch1 + received t batch2.
Proof.
  induction batch1 as [|[log|] rest IH]; simpl; [done|..]; rewrite IH; lia.
Qed.

Lemma received_Permutation t batch batch' :
  batch ≡ₚ batch' → received t batch = received t batch'.
Proof.
  induction 1 as [|x l l' _ IH|x y l|l l' l'' _ IH1 _ IH2]; [done|..].
  - destruct x; simpl; by rewrite IH.
  - destruct x, y; simpl; lia.
  - congruence.
Qed.

Lemma emitted_by_Permutation t batch batch' :
  batch ≡ₚ batch' → emitted_by t batch → emitted_by t batch'.
Proof.
  intros Hperm (log & Hin & Haddr). exists log. split; [|done].
  by rewrite <- Hperm.
Qed.

Lemma balance_in_rows t (m : JsMap Z) :
  balance_in t (map (λ '(t, b), {| token := t; balance := b |}) m) =
  default 0 (map_get m t).
Proof.
  induction m as [|[k b] m IH]; [done|]. simpl.
  by destruct (String.eqb k t).
Qed.

(** The balance that the rows of a batch list for a token is what the
    batch holds for it. *)
Lemma balance_in_received t decodedLogs out :
  Forall decoded_transfer decodedLogs →
  tokenBalances_of decodedLogs = ok out →
  balance_in t out = received t decodedLogs.
Proof.
  intros Hshape Hout.
  destruct (tokenBalances_rows decodedLogs Hshape) as (m & Hm & _ & Hget).
  rewrite Hm in Hout. injection Hout as <-. rewrite balance_in_rows.
  destruct (emitted_by_dec t decodedLogs) as [He|He].
  - by rewrite (proj1 (Hget t) He).
  - rewrite (proj2 (Hget t) He). simpl. symmetry.
    by apply received_not_emitted.
Qed.

(** X13.  The rows of [getTokenBalances] do not depend on the order of
    the events: a reordered batch of decoded transfers gives the same
    rows, up to their order. *)
Theorem token_balances_ignore_event_order batch batch' :
  Forall decoded_transfer batch →
  batch ≡ₚ batch' →
  ∃ out out',
    tokenBalances_of batch = ok out
    ∧ tokenBalances_of batch' = ok out'
    ∧ out ≡ₚ out'.
Proof.
  intros Hshape Hperm.
  assert (Forall decoded_transfer batch') as Hshape' by (by rewrite <- Hperm).
  destruct (tokenBalances_rows batch Hshape) as (m & Hm & Hnd & Hget).
  destruct (tokenBalances_rows batch' Hshape') as (m' & Hm' & Hnd' & Hget').
  eexists _, _. split_and!; [done..|].
  apply Permutation_map. apply NoDup_Permutation.
  - by apply (NoDup_fmap_1 fst).
  - by apply (NoDup_fmap_1 fst).
  - intros [t b]. rewrite <- !map_get_elem_of by done.
    destruct (emitted_by_dec t batch) as [He|He].
    + rewrite (proj1 (Hget t) He).
      rewrite (proj1 (Hget' t) (emitted_by_Permutation _ _ _ Hperm He)).
      by rewrite (received_Permutation t _ _ Hperm).
    + rewrite (proj2 (Hget t) He), (proj2 (Hget' t)); [done|].
      intros He'. apply He.
      by apply (emitted_by_Permutation t batch' batch).
Qed.

(** The transfers of the specification's example, in another order. *)
Lemma token_balances_ignore_event_order_witness :
  ∃ out out',
    tokenBalances_of [ Some (transfer_event "0xA" 100);
                       Some (transfer_event "0xA" 50);
                       Some (transfer_event "0xB" 7) ] = ok out
    ∧ tokenBalances_of [ Some (transfer_event "0xB" 7);
                         Some (transfer_event "0xA" 100);
                         Some (transfer_event "0xA" 50) ] = ok out'
    ∧ out ≡ₚ out'.
Proof.
  apply token_balances_ignore_event_order.
  - repeat apply Forall_cons_2; try apply Forall_nil_2;
      simpl; eexists; reflexivity.
  - apply (Permutation_app_comm
             [ Some (transfer_event "0xA" 100); Some (transfer_event "0xA" 50) ]
             [ Some (transfer_event "0xB" 7) ]).
Defined.

(** X14.  Balances add up over consecutive batches: for every token,
    the balance listed for the concatenation of two batches of decoded
    transfers is the sum of the balances listed for each (a token
    without a row counting as 0).  Events are never deduplicated, so a
    batch processed twice doubles every balance. *)
Theorem token_balances_add_over_batches batch1 batch2 :
  Forall decoded_transfer batch1 →
  Forall decoded_transfer batch2 →
  ∃ out1 out2 out,
    tokenBalances_of batch1 = ok out1
    ∧ tokenBalances_of batch2 = ok out2
    ∧ tokenBalances_of (batch1 ++ batch2) = ok out
    ∧ ∀ t, balance_in t out = balance_in t out1 + balance_in t out2.
Proof.
  intros H1 H2.
  assert (Forall decoded_transfer (batch1 ++ batch2)) as H12
    by (by apply Forall_app).
  destruct (tokenBalances_rows batch1 H1) as (m1 & Hm1 & _).
  destruct (tokenBalances_rows batch2 H2) as (m2 & Hm2 & _).
  destruct (tokenBalances_rows _ H12) as (m & Hm & _).
  eexists _, _, _. split_and!; [done..|]. intros t.
  rewrite (balance_in_received t _ _ H12 Hm).
  rewrite (balance_in_received t _ _ H1 Hm1).
  rewrite (balance_in_received t _ _ H2 Hm2).
  apply received_app.
Qed.

(** Token A receives 100 in one batch, 50 and (token B) 7 in the next. *)
Lemma token_balances_add_over_batches_witness :
  ∃ out1 out2 out,
    tokenBalances_of [ Some (transfer_event "0xA" 100) ] = ok out1
    ∧ tokenBalances_of [ Some (transfer_event "0xA" 50);
                         Some (transfer_event "0xB" 7) ] = ok out2
    ∧ tokenBalances_of ([ Some (transfer_event "0xA" 100) ]
                        ++ [ Some (transfer_event "0xA" 50);
                             Some (transfer_event "0xB" 7) ]) = ok out
    ∧ ∀ t, balance_in t out = balance_in t out1 + balance_in t out2.
Proof.
  apply token_balances_add_over_batches.
  - repeat apply Forall_cons_2; try apply Forall_nil_2;
      simpl; eexists; reflexivity.
  - repeat apply Forall_cons_2; try apply Forall_nil_2;
      simpl; eexists; reflexivity.
Defined.

(** ** Events that fail or do not count *)

Lemma for_of_throws {A S} (step : S → A → Throws S) (E : Error) xs x :
  (∀ acc y e, step acc y = throw e → e = E) →
  x ∈ xs → (∀ acc, step acc x = throw E) →
  ∀ acc, for_of step acc xs = throw E.
Proof.
  intros Honly Hin Hx. induction xs as [|y xs IH]; intros acc.
  - by apply elem_of_nil in Hin.
  - rewrite for_of_cons.
    destruct (step acc y) as [e|acc'] eqn:Hy.
    + by rewrite (Honly _ _ _ Hy).
    + apply elem_of_cons in Hin as [->|Hin].
      * rewrite Hx in Hy. discriminate.
      * by apply IH.
Qed.

Lemma for_of_error {A S} (step : S → A → Throws S) (E : Error) xs :
  (∀ acc y e, step acc y = throw e → e = E) →
  ∀ acc e, for_of step acc xs = throw e → e = E.
Proof.
  intros Honly. induction xs as [|y xs IH]; intros acc e; [done|].
  rewrite for_of_cons. destruct (step acc y) as [e'|acc'] eqn:Hy.
  - intros [= <-]. by apply (Honly _ _ _ Hy).
  - apply IH.
Qed.

Lemma tokenBalances_step_error balances log e :
  tokenBalances_step balances log = throw e → e = TypeError.
Proof.
  unfold tokenBalances_step, get_val, bigint_add, tbind, throw, ok.
  intros H. repeat case_match; congruence.
Qed.

Lemma nftBalances_step_error nftBalances log e :
  nftBalances_step nftBalances log = throw e → e = TypeError.
Proof.
  unfold nftBalances_step, toString_method, tbind, throw, ok.
  intros H. repeat case_match; congruence.
Qed.

Lemma nftBalances_step_returns nftBalances log m :
  nftBalances_step nftBalances log = ok m → has_token_id log.
Proof.
  destruct log as [log|]; [|done]. simpl. intros Hstep Hrel Hundef.
  unfold nft_relevant in Hrel. unfold nftBalances_step in Hstep.
  rewrite Hundef in Hstep.
  destruct (String.eqb (topic0 log) ERC721_TRANSFER_TOPIC); [done|].
  simpl in Hrel. by rewrite Hrel in Hstep.
Qed.

(** X15.  An event without its first body field fails the whole batch:
    [getTokenBalances] throws a TypeError as soon as one event of the
    batch lacks [body[0]], and [getNFTBalances] returns rows exactly when
    every ERC721 Transfer and TransferSingle event of the batch has it,
    and throws a TypeError otherwise.  No partial result is returned. *)
Theorem missing_body_field_fails_batch decodedLogs :
  (∀ log, Some log ∈ decodedLogs → body_at log 0 = JsUndefined →
          tokenBalances_of decodedLogs = throw TypeError)
  ∧ ((∃ out, nftBalances_of decodedLogs = ok out) ↔
     Forall has_token_id decodedLogs)
  ∧ (∀ e, nftBalances_of decodedLogs = throw e → e = TypeError).
Proof.
  split_and!.
  - intros log Hin Hundef. unfold tokenBalances_of.
    rewrite (for_of_throws tokenBalances_step TypeError decodedLogs (Some log));
      [done|apply tokenBalances_step_error|done|].
    intros acc. unfold tokenBalances_step. by rewrite Hundef.
  - split.
    + intros [out Hout]. unfold nftBalances_of in Hout.
      destruct (for_of nftBalances_step [] decodedLogs) as [e|m] eqn:Hloop;
        [done|]. clear Hout. revert Hloop. generalize (@nil (string * NFTBalance)).
      induction decodedLogs as [|log rest IH]; intros m0; [constructor|].
      rewrite for_of_cons.
      destruct (nftBalances_step m0 log) as [e|m1] eqn:Hstep; [done|].
      intros Hrest. apply Forall_cons_2.
      * by apply (nftBalances_step_returns m0 log m1).
      * by apply (IH m1).
    + intros Hshape.
      destruct (nftBalances_loop decodedLogs [] Hshape) as (m & Hm & _);
        [apply NoDup_nil_2|].
      unfold nftBalances_of. rewrite Hm. by eexists.
  - intros e. unfold nftBalances_of.
    destruct (for_of nftBalances_step [] decodedLogs) as [e'|m] eqn:Hloop;
      [|done].
    intros [= <-].
    by apply (for_of_error nftBalances_step TypeError decodedLogs
                nftBalances_step_error [] e').
Qed.

(** A transfer event whose body is empty, after a well-formed one. *)
Lemma missing_body_field_fails_batch_witness :
  tokenBalances_of
    [ Some (transfer_event "0xA" 100);
      Some {| address := "0xB"; topic0 := ERC20_TRANSFER_TOPIC; body := [];
              transactionHash := "0x04"; blockNumber := 4; timestamp := 4 |} ] =
  throw TypeError.
Proof.
  apply (proj1 (missing_body_field_fails_batch _)
           {| address := "0xB"; topic0 := ERC20_TRANSFER_TOPIC; body := [];
              transactionHash := "0x04"; blockNumber := 4; timestamp := 4 |}).
  - right. left.
  - reflexivity.
Defined.

(** X16.  The query of [getNFTBalances] asks for ERC1155 TransferBatch
    logs, but the loop never records them: a decoded TransferBatch
    event, like any event that is neither an ERC721 Transfer nor a
    TransferSingle, leaves the result as it is without it. *)
Theorem transfer_batch_events_are_dropped :
  (∀ wallet since query,
     nftBalances_query wallet since = ok query →
     ∃ erc721Filter padded,
       logs query =
       Some [ erc721Filter;
              {| sel_address := None;
                 sel_topics := Some [ Some [ERC1155_TRANSFER_SINGLE_TOPIC;
                                            ERC1155_TRANSFER_BATCH_TOPIC];
                                      None; Some [padded] ] |} ])
  ∧ (∀ before log after,
       topic0 log = ERC1155_TRANSFER_BATCH_TOPIC →
       nftBalances_of (before ++ Some log :: after) =
       nftBalances_of (before ++ after))
  ∧ (∀ before log after,
       topic0 log ≠ ERC721_TRANSFER_TOPIC →
       topic0 log ≠ ERC1155_TRANSFER_SINGLE_TOPIC →
       nftBalances_of (before ++ Some log :: after) =
       nftBalances_of (before ++ after)).
Proof.
  assert (∀ before log after,
            nft_relevant log = false →
            nftBalances_of (before ++ Some log :: after) =
            nftBalances_of (before ++ after)) as Hskip.
  { intros before log after Hrel. unfold nftBalances_of.
    rewrite for_of_skip; [done|].
    intros acc. by apply nftBalances_step_other. }
  split_and!.
  - intros wallet since query. unfold nftBalances_query.
    destruct (zeroPadValue (toLowerCase wallet) 32) as [e|padded]; [done|].
    intros [= <-]. by eexists _, _.
  - intros before log after Htopic. apply Hskip.
    unfold nft_relevant. by rewrite Htopic.
  - intros before log after H721 H1155. apply Hskip.
    unfold nft_relevant. apply orb_false_iff. by rewrite !String.eqb_neq.
Qed.

(** A TransferBatch event between two recorded ones. *)
Lemma transfer_batch_events_are_dropped_witness :
  nftBalances_of
    ([ Some (erc721_event "0xX" 5) ]
     ++ Some {| address := "0xY"; topic0 := ERC1155_TRANSFER_BATCH_TOPIC;
                body := [JsBigInt 1; JsBigInt 2];
                transactionHash := "0x05"; blockNumber := 5; timestamp := 5 |}
     :: [ Some (erc1155_event "0xY" 7 3) ]) =
  nftBalances_of
    ([ Some (erc721_event "0xX" 5) ] ++ [ Some (erc1155_event "0xY" 7 3) ]).
Proof.
  apply (proj1 (proj2 transfer_batch_events_are_dropped)). reflexivity.
Defined.

(** ** Replaying a batch of NFT events *)

Lemma map_ext_keys {V} (m1 : JsMap V) : ∀ m2 : JsMap V,
  map_keys m1 = map_keys m2 →
  NoDup (map_keys m1) →
  (∀ k, map_get m1 k = map_get m2 k) →
  m1 = m2.
Proof.
  induction m1 as [|[k v] m1 IH]; intros [|[k' v'] m2] Hkeys Hnd Hget;
    try discriminate; [done|].
  injection Hkeys as Hhead Hkeys. subst k'.
  apply NoDup_cons in Hnd as [Hk Hnd].
  pose proof (Hget k) as Hk0. simpl in Hk0. rewrite String.eqb_refl in Hk0.
  injection Hk0 as <-. f_equal. apply IH; [done..|].
  intros k0. specialize (Hget k0). simpl in Hget.
  destruct (String.eqb_spec k k0) as [Heq|Hne]; [|done]. subst k0.
  assert (map_get m1 k = None) as -> by (by apply map_get_None).
  symmetry. apply map_get_None. by rewrite <- Hkeys.
Qed.

(** When every recorded event has its key in the map already, the loop
    keeps the keys and their order. *)
Lemma nftBalances_loop_keys decodedLogs : ∀ m0 m,
  (∀ log, Some log ∈ decodedLogs → nft_relevant log = true →
          nft_key log ∈ map_keys m0) →
  for_of nftBalances_step m0 decodedLogs = ok m →
  map_keys m = map_keys m0.
Proof.
  induction decodedLogs as [|[log|] rest IH]; intros m0 m Hkeys.
  - by intros [= <-].
  - rewrite for_of_cons.
    destruct (nftBalances_step m0 (Some log)) as [e|m1] eqn:Hstep; [done|].
    cbn [tbind]. intros Hrest.
    assert (map_keys m1 = map_keys m0) as Hm1.
    { destruct (nft_relevant log) eqn:Hrel.
      - pose proof (nftBalances_step_returns _ _ _ Hstep Hrel) as Hid.
        rewrite nftBalances_step_relevant in Hstep by done.
        injection Hstep as <-. rewrite map_keys_set.
        destruct (map_get m0 (nft_key log)) eqn:Hget; [done|].
        apply map_get_None in Hget. exfalso. apply Hget, Hkeys; [left|done].
      - rewrite nftBalances_step_other in Hstep by done. by injection Hstep as <-. }
    rewrite <- Hm1. apply IH; [|done].
    intros log' Hin Hrel. rewrite Hm1. apply Hkeys; [by right|done].
  - rewrite for_of_cons. cbn [nftBalances_step tbind ok]. apply IH.
    intros log' Hin Hrel. apply Hkeys; [by right|done].
Qed.

Lemma last_event_in k decodedLogs log :
  Some log ∈ decodedLogs → nft_relevant log = true → nft_key log = k →
  is_Some (last_event k decodedLogs).
Proof.
  intros Hin Hrel Hk.
  destruct (last_event k decodedLogs) as [l|] eqn:Hlast; [eauto|].
  exfalso. by apply (proj1 (last_event_None k decodedLogs) Hlast log).
Qed.

(** X17.  Replaying a batch changes nothing in [getNFTBalances]: for a
    batch whose recorded events carry their token id, the batch followed
    by itself gives the same rows, in the same order, as the batch
    alone. *)
Theorem nft_balances_replay_is_idempotent decodedLogs :
  Forall has_token_id decodedLogs →
  nftBalances_of (decodedLogs ++ decodedLogs) = nftBalances_of decodedLogs.
Proof.
  intros Hshape.
  destruct (nftBalances_loop decodedLogs [] Hshape) as (m & Hm & Hnd & Hget);
    [apply NoDup_nil_2|].
  destruct (nftBalances_loop decodedLogs m Hshape Hnd) as (m2 & Hm2 & Hnd2 & Hget2).
  unfold nftBalances_of. rewrite for_of_app, Hm, tbind_ok, Hm2, !tbind_ok.
  f_equal. f_equal.
  apply map_ext_keys; [|done|].
  - apply (nftBalances_loop_keys decodedLogs m m2); [|done].
    intros log Hin Hrel.
    destruct (last_event_in (nft_key log) decodedLogs log Hin Hrel eq_refl)
      as [l Hl].
    destruct (map_get m (nft_key log)) eqn:Hk.
    + destruct (decide (nft_key log ∈ map_keys m)) as [|Hno]; [done|].
      apply map_get_None in Hno. congruence.
    + rewrite Hget, Hl in Hk. discriminate.
  - intros k. rewrite Hget2, Hget.
    by destruct (last_event k decodedLogs).
Qed.

(** A holding overwritten within the batch, replayed. *)
Lemma nft_balances_replay_is_idempotent_witness :
  nftBalances_of
    ([ Some (erc1155_event "0xX" 5 9); None; Some (erc721_event "0xX" 5) ]
     ++ [ Some (erc1155_event "0xX" 5 9); None; Some (erc721_event "0xX" 5) ]) =
  nftBalances_of
    [ Some (erc1155_event "0xX" 5 9); None; Some (erc721_event "0xX" 5) ].
Proof.
  apply nft_balances_replay_is_idempotent.
  repeat apply Forall_cons_2; try apply Forall_nil_2;
    simpl; try exact I; intros _; discriminate.
Defined.

(** ** serializeBigInts and JSON.stringify *)

Lemma map_set_values {V} (Q : V → Prop) (m : JsMap V) k v :
  Q v → Forall (λ entry, Q (snd entry)) m →
  Forall (λ entry, Q (snd entry)) (map_set m k v).
Proof.
  intros Hv. induction m as [|[k' v'] m IH]; intros Hm; simpl.
  - by apply Forall_cons_2.
  - apply Forall_cons in Hm as [Hv' Hm].
    destruct (String.eqb k' k); apply Forall_cons_2; auto.
Qed.

(** The loop that fills [newObj] keeps a property of the values when
    every new value has it. *)
Lemma fill_newObj_values (Q : Any → Prop) (f : Any → Any) entries :
  Forall (λ entry, Q (f (snd entry))) entries →
  ∀ newObj : JsMap Any,
    Forall (λ entry, Q (snd entry)) newObj →
    Forall (λ entry, Q (snd entry))
      (fold_left (λ (acc : JsMap Any) (entry : string * Any),
                    assign acc (fst entry) (f (snd entry))) entries newObj).
Proof.
  induction 1 as [|entry entries Hentry _ IH]; intros newObj Hacc; [done|].
  simpl. apply IH. unfold assign.
  destruct (String.eqb (fst entry) "__proto__"); [done|].
  by apply map_set_values.
Qed.

Lemma fill_newObj_NoDup (f : Any → Any) entries : ∀ newObj : JsMap Any,
  NoDup (map_keys newObj) →
  NoDup (map_keys
           (fold_left (λ (acc : JsMap Any) (entry : string * Any),
                         assign acc (fst entry) (f (snd entry)))
              entries newObj)).
Proof.
  induction entries as [|entry entries IH]; intros newObj Hnd; [done|].
  simpl. apply IH. unfold assign.
  destruct (String.eqb (fst entry) "__proto__"); [done|].
  by apply map_set_NoDup.
Qed.

Lemma map_set_keys_other {V} (m : JsMap V) k v k' :
  k' ≠ k → k' ∉ map_keys m → k' ∉ map_keys (map_set m k v).
Proof.
  intros Hne. induction m as [|[k0 v0] m IH]; simpl.
  - intros _. rewrite not_elem_of_cons. split; [done|apply not_elem_of_nil].
  - rewrite not_elem_of_cons. intros [Hk0 Hm].
    destruct (String.eqb k0 k); simpl; rewrite not_elem_of_cons; auto.
Qed.

(** The loop that fills [newObj] never creates an own key
    ["__proto__"]. *)
Lemma fill_newObj_no_proto (f : Any → Any) entries : ∀ newObj : JsMap Any,
  "__proto__" ∉ map_keys newObj →
  "__proto__" ∉
    map_keys (fold_left (λ (acc : JsMap Any) (entry : string * Any),
                           assign acc (fst entry) (f (snd entry)))
                entries newObj).
Proof.
  induction entries as [|entry entries IH]; intros newObj Hno; [done|].
  simpl. apply IH. unfold assign.
  destruct (String.eqb_spec (fst entry) "__proto__") as [|Hne]; [done|].
  apply map_set_keys_other; [congruence|done].
Qed.

Lemma distinct_NoDup keys : distinct keys = true ↔ NoDup keys.
Proof.
  induction keys as [|k keys IH].
  - split; [intros _; apply NoDup_nil_2|done].
  - rewrite distinct_cons, NoDup_cons, IH. done.
Qed.

Lemma existsb_false_Forall {A} (p : A → bool) xs :
  existsb p xs = false ↔ Forall (λ x, p x = false) xs.
Proof.
  induction xs as [|x xs IH]; simpl.
  - split; [constructor|done].
  - rewrite orb_false_iff, Forall_cons, IH. done.
Qed.

Lemma forallb_Forall {A} (p : A → bool) xs :
  forallb p xs = true ↔ Forall (λ x, p x = true) xs.
Proof.
  induction xs as [|x xs IH]; simpl.
  - split; [constructor|done].
  - rewrite andb_true_iff, Forall_cons, IH. done.
Qed.

Lemma serializeBigInts_no_bigint v : has_bigint (serializeBigInts v) = false.
Proof.
  induction v as [z|s|p|items IH|entries IH] using Any_ind; try done.
  - simpl. apply existsb_false_Forall, Forall_fmap.
    by apply (Forall_impl _ _ _ IH).
  - cbn [serializeBigInts has_bigint]. apply existsb_false_Forall.
    apply (fill_newObj_values (λ v, has_bigint v = false)); [done|constructor].
Qed.

Lemma serializeBigInts_well_keyed v : well_keyed (serializeBigInts v) = true.
Proof.
  induction v as [z|s|p|items IH|entries IH] using Any_ind; try done.
  - simpl. apply forallb_Forall, Forall_fmap.
    by apply (Forall_impl _ _ _ IH).
  - cbn [serializeBigInts well_keyed]. rewrite !andb_true_iff. split_and!.
    + apply distinct_NoDup. apply (fill_newObj_NoDup serializeBigInts).
      apply NoDup_nil_2.
    + apply negb_true_iff, own_proto_false.
      apply (fill_newObj_no_proto serializeBigInts). apply not_elem_of_nil.
    + apply forallb_Forall.
      apply (fill_newObj_values (λ v, well_keyed v = true)); [done|constructor].
Qed.

Lemma serializeBigInts_fixes v :
  has_bigint v = false → well_keyed v = true → serializeBigInts v = v.
Proof.
  induction v as [z|s|p|items IH|entries IH] using Any_ind; try done.
  - simpl. intros Hno Hkeys. f_equal.
    apply existsb_false_Forall in Hno. apply forallb_Forall in Hkeys.
    induction items as [|item items IHitems]; [done|].
    apply Forall_cons in IH as [IHitem IH].
    apply Forall_cons in Hno as [Hitem Hno].
    apply Forall_cons in Hkeys as [Hkey Hkeys].
    simpl. by rewrite IHitem, IHitems.
  - cbn [has_bigint well_keyed serializeBigInts]. intros Hno Hkeys.
    apply andb_true_iff in Hkeys as [Hdistinct Hkeys].
    apply andb_true_iff in Hdistinct as [Hdistinct Hproto].
    apply negb_true_iff in Hproto.
    apply existsb_false_Forall in Hno. apply forallb_Forall in Hkeys.
    rewrite (fill_newObj serializeBigInts entries []); [|done|done|].
    2: { intros k _. apply not_elem_of_nil. }
    rewrite app_nil_l. f_equal. clear Hdistinct Hproto.
    induction entries as [|[k v] entries IHentries]; [done|].
    apply Forall_cons in IH as [IHv IH].
    apply Forall_cons in Hno as [Hv Hno].
    apply Forall_cons in Hkeys as [Hkey Hkeys].
    simpl in *. by rewrite IHv, IHentries.
Qed.

(** X18.  [serializeBigInts] leaves no bigint anywhere in its result,
    changes nothing in a value that holds no bigint and whose objects
    have no own key ["__proto__"], and is idempotent: applying it to
    its own result returns that result. *)
Theorem serializeBigInts_removes_bigints_once :
  (∀ v, has_bigint (serializeBigInts v) = false)
  ∧ (∀ v, has_bigint v = false → well_keyed v = true →
          serializeBigInts v = v)
  ∧ (∀ v, serializeBigInts (serializeBigInts v) = serializeBigInts v).
Proof.
  split_and!.
  - apply serializeBigInts_no_bigint.
  - apply serializeBigInts_fixes.
  - intros v. apply serializeBigInts_fixes.
    + apply serializeBigInts_no_bigint.
    + apply serializeBigInts_well_keyed.
Qed.

(** A response-like object without bigints comes back as it is. *)
Lemma serializeBigInts_removes_bigints_once_witness :
  serializeBigInts
    (AObject [("hash", AString "0xabc");
              ("logs", AArray [APrimitive (PNumber 3); APrimitive PNull])]) =
  AObject [("hash", AString "0xabc");
           ("logs", AArray [APrimitive (PNumber 3); APrimitive PNull])].
Proof.
  apply (proj1 (proj2 serializeBigInts_removes_bigints_once));
    reflexivity.
Defined.

Lemma array_map_returns_iff {A B} (f : A → Throws B) xs :
  (∃ ys, array_map f xs = ok ys) ↔ Forall (λ x, ∃ y, f x = ok y) xs.
Proof.
  split.
  - induction xs as [|x xs IH]; intros [ys Hys]; [constructor|].
    simpl in Hys. destruct (f x) as [e|y] eqn:Hx; [done|].
    destruct (array_map f xs) as [e|ys'] eqn:Hxs; [done|].
    apply Forall_cons_2; [eauto|]. apply IH. eauto.
  - intros Hall. destruct (array_map_ok f xs) as (ys & Hys & _); [|eauto].
    intros x Hx. rewrite Forall_forall in Hall. by apply Hall.
Qed.

Lemma array_map_error {A B} (f : A → Throws B) xs e :
  array_map f xs = throw e → ∃ x, x ∈ xs ∧ f x = throw e.
Proof.
  induction xs as [|x xs IH]; [done|]. simpl.
  destruct (f x) as [e'|y] eqn:Hx.
  - intros [= <-]. exists x. split; [left|done].
  - destruct (array_map f xs) as [e'|ys]; [|done].
    intros [= <-]. destruct IH as (x' & Hin & Hx'); [done|].
    exists x'. split; [by right|done].
Qed.

Lemma tbind_returns {A B} (c : Throws A) (k : A → B) :
  (∃ y, tbind c (λ x, ok (k x)) = ok y) ↔ ∃ x, c = ok x.
Proof.
  destruct c as [e|x]; simpl; split; intros [? ?]; try done; eauto.
Qed.

Lemma JSON_stringify_returns v :
  (∃ text, JSON_stringify v = ok text) ↔ has_bigint v = false.
Proof.
  induction v as [z|s|p|items IH|entries IH] using Any_ind.
  - split; [by intros [? ?]|done].
  - split; [done|]. intros _. by eexists.
  - split; [done|]. intros _. destruct p as [| |[]|]; by eexists.
  - cbn [JSON_stringify has_bigint].
    rewrite existsb_false_Forall, tbind_returns, array_map_returns_iff.
    rewrite !Forall_forall in *.
    split; intros Hall item Hin; specialize (IH item Hin);
      specialize (Hall item Hin).
    + apply IH. by apply tbind_returns in Hall.
    + apply tbind_returns. by apply IH.
  - cbn [JSON_stringify has_bigint].
    rewrite existsb_false_Forall, tbind_returns, array_map_returns_iff.
    rewrite !Forall_forall in *.
    split; intros Hall entry Hin; specialize (IH entry Hin);
      specialize (Hall entry Hin).
    + apply IH. by apply tbind_returns in Hall.
    + apply tbind_returns. by apply IH.
Qed.

Lemma JSON_stringify_error v e : JSON_stringify v = throw e → e = TypeError.
Proof.
  revert e. induction v as [z|s|p|items IH|entries IH] using Any_ind;
    intros e.
  - by intros [= <-].
  - done.
  - by destruct p as [| |[]|].
  - cbn [JSON_stringify]. rewrite Forall_forall in IH.
    destruct (array_map _ items) as [e'|parts] eqn:Hmap; [|done].
    intros [= <-]. apply array_map_error in Hmap as (item & Hin & Hitem).
    destruct (JSON_stringify item) as [e''|text] eqn:Hs; [|done].
    injection Hitem as <-. by apply (IH item Hin).
  - cbn [JSON_stringify]. rewrite Forall_forall in IH.
    destruct (array_map _ entries) as [e'|parts] eqn:Hmap; [|done].
    intros [= <-]. apply array_map_error in Hmap as (entry & Hin & Hentry).
    destruct (JSON_stringify (snd entry)) as [e''|text] eqn:Hs; [|done].
    injection Hentry as <-. by apply (IH entry Hin).
Qed.

(** X19.  [JSON.stringify] returns a text exactly for the values
    without a bigint and throws a TypeError for the others; so it always
    returns on the result of [serializeBigInts], whatever the value
    was. *)
Theorem stringify_after_serializeBigInts_returns v :
  ((∃ text, JSON_stringify v = ok text) ↔ has_bigint v = false)
  ∧ (has_bigint v = true → JSON_stringify v = throw TypeError)
  ∧ ∃ text, JSON_stringify (serializeBigInts v) = ok text.
Proof.
  split_and!.
  - apply JSON_stringify_returns.
  - intros Hbig. destruct (JSON_stringify v) as [e|text] eqn:Hv.
    + by rewrite (JSON_stringify_error v e Hv).
    + assert (has_bigint v = false) as Hno
        by (apply JSON_stringify_returns; eauto).
      congruence.
  - apply JSON_stringify_returns, serializeBigInts_no_bigint.
Qed.

(** A balance row: rejected as it is, printed once serialized. *)
Lemma stringify_after_serializeBigInts_returns_witness :
  JSON_stringify
    (TokenBalance_to_any {| token := "0xA"; balance := 150 |}) =
  throw TypeError
  ∧ ∃ text,
      JSON_stringify
        (serializeBigInts
           (TokenBalance_to_any {| token := "0xA"; balance := 150 |})) =
      ok text.
Proof.
  destruct (stringify_after_serializeBigInts_returns
              (TokenBalance_to_any {| token := "0xA"; balance := 150 |}))
    as (_ & Hthrows & Hreturns).
  split; [apply Hthrows; reflexivity|exact Hreturns].
Defined.

(** ** The tools *)

Lemma tool_execute_fails {A} (run : Helper A) render st e :
  fst (run st) = throw e →
  tool_execute run render st = (tool_failure e, snd (run st)).
Proof.
  unfold tool_execute. destruct (run st) as [[e'|x] st']; simpl; [|done].
  by intros [= <-].
Qed.

Lemma tool_execute_returns {A} (run : Helper A) render st x :
  fst (run st) = ok x →
  tool_execute run render st =
  (match render x with
   | inl e => tool_failure e
   | inr text => tool_success text
   end, snd (run st)).
Proof.
  unfold tool_execute. destruct (run st) as [[e'|x'] st']; simpl; [done|].
  intros [= <-]. by destruct (render x').
Qed.

(** A tool whose rendering always returns succeeds exactly when its
    operation returns. *)
Lemma tool_execute_success {A} (run : Helper A) render st :
  (∀ x, ∃ text, render x = ok text) →
  success (fst (tool_execute run render st)) = true ↔
  ∃ x, fst (run st) = ok x.
Proof.
  intros Hrender. destruct (fst (run st)) as [e|x] eqn:Hrun.
  - rewrite (tool_execute_fails _ _ _ _ Hrun). simpl.
    split; [done|by intros [? ?]].
  - rewrite (tool_execute_returns _ _ _ _ Hrun). simpl.
    destruct (Hrender x) as [text ->]. simpl. split; eauto.
Qed.

Lemma JSON_stringify_bigint v :
  has_bigint v = true → JSON_stringify v = throw TypeError.
Proof.
  intros Hbig. destruct (JSON_stringify v) as [e|text] eqn:Hv.
  - by rewrite (JSON_stringify_error v e Hv).
  - assert (has_bigint v = false) as Hno
      by (apply JSON_stringify_returns; eauto).
    congruence.
Qed.

Lemma TokenMetadata_not_serializable md :
  JSON_stringify (TokenMetadata_to_any md) = throw TypeError.
Proof.
  apply JSON_stringify_bigint.
  unfold TokenMetadata_to_any. simpl. by rewrite !orb_true_r.
Qed.

Section ToolFacts.
Context (Log : Type).
Context (get : HypersyncClient → Query → Throws (QueryResponse Log)).
Context (decodeLogs : Decoder → list Log → Throws (list (option DecodedEvent))).
Context (ethers_id : string → string).

(** X20.  [getTokenMetadataTool] never reports success: when
    [getTokenMetadata] throws, the tool reports that error, and when it
    returns, [JSON.stringify] meets the bigint [totalSupply], which was
    not passed through [serializeBigInts], and the tool reports the
    TypeError. *)
Theorem getTokenMetadataTool_never_succeeds chainId tokenAddress st :
  success (fst (getTokenMetadataTool Log get chainId tokenAddress st)) = false
  ∧ data (fst (getTokenMetadataTool Log get chainId tokenAddress st)) = None
  ∧ (∀ md,
       fst (getTokenMetadata Log get chainId tokenAddress st) = ok md →
       error (fst (getTokenMetadataTool Log get chainId tokenAddress st)) =
       Some TypeError).
Proof.
  unfold getTokenMetadataTool.
  destruct (fst (getTokenMetadata Log get chainId tokenAddress st))
    as [e|md] eqn:Hrun.
  - rewrite (tool_execute_fails _ _ _ _ Hrun). by split_and!.
  - rewrite (tool_execute_returns _ _ _ _ Hrun).
    rewrite TokenMetadata_not_serializable. by split_and!.
Qed.

(** X21.  The tools that pass their result through [serializeBigInts]
    report success exactly when their operation returns, since the
    rendering cannot fail; when the operation throws they report its
    error, and in both cases the static fields are those the operation
    left. *)
Theorem serializing_tools_succeed_with_their_operation chainId st :
  (∀ wallet since,
     let run := getTokenBalances Log get decodeLogs chainId wallet since in
     let tool := getTokenBalancesTool Log get decodeLogs chainId wallet since in
     (success (fst (tool st)) = true ↔ ∃ rows, fst (run st) = ok rows)
     ∧ (∀ e, fst (run st) = throw e → fst (tool st) = tool_failure e)
     ∧ snd (tool st) = snd (run st))
  ∧ (∀ wallet since,
       let run := getNFTBalances Log get decodeLogs chainId wallet since in
       let tool := getNFTBalancesTool Log get decodeLogs chainId wallet since in
       (success (fst (tool st)) = true ↔ ∃ rows, fst (run st) = ok rows)
       ∧ (∀ e, fst (run st) = throw e → fst (tool st) = tool_failure e)
       ∧ snd (tool st) = snd (run st))
  ∧ (∀ dex since till tokenAddress,
       let run := getDexSwaps Log get decodeLogs ethers_id chainId dex since
                    till tokenAddress in
       let tool := getDexSwapsTool Log get decodeLogs ethers_id chainId dex
                     since till tokenAddress in
       (success (fst (tool st)) = true ↔ ∃ rows, fst (run st) = ok rows)
       ∧ (∀ e, fst (run st) = throw e → fst (tool st) = tool_failure e)
       ∧ snd (tool st) = snd (run st))
  ∧ (∀ pool since till,
       let run := getLiquidityPoolStats Log get chainId pool since till in
       let tool := getLiquidityPoolStatsTool Log get chainId pool since till in
       (success (fst (tool st)) = true ↔ ∃ stats, fst (run st) = ok stats)
       ∧ (∀ e, fst (run st) = throw e → fst (tool st) = tool_failure e)
       ∧ snd (tool st) = snd (run st)).
Proof.
  assert (∀ A (run : Helper A) (to_any : A → Any),
            let tool := tool_execute run
                          (λ x, JSON_stringify (serializeBigInts (to_any x))) in
            (success (fst (tool st)) = true ↔ ∃ x, fst (run st) = ok x)
            ∧ (∀ e, fst (run st) = throw e → fst (tool st) = tool_failure e)
            ∧ snd (tool st) = snd (run st)) as Hany.
  { intros A run to_any tool. split_and!.
    - apply tool_execute_success. intros x.
      apply JSON_stringify_returns, serializeBigInts_no_bigint.
    - intros e He. unfold tool. by rewrite (tool_execute_fails _ _ _ _ He).
    - unfold tool, tool_execute.
      destruct (run st) as [[e|x] st']; [done|].
      by destruct (JSON_stringify _). }
  split_and!; intros.
  - apply (Hany _ _ (λ rows, AArray (map TokenBalance_to_any rows))).
  - apply (Hany _ _ (λ rows, AArray (map NFTBalance_to_any rows))).
  - apply (Hany _ _ (λ rows, AArray (map DexSwap_to_any rows))).
  - apply (Hany _ _ PoolStats_to_any).
Qed.

End ToolFacts.

(** The token that answers "USDC" and 6: the operation returns, the
    tool fails. *)
Lemma getTokenMetadataTool_never_succeeds_witness :
  fst (getTokenMetadataTool unit usdc_service 1
         "0xa0b86991c6218b36c1d19d4a2e9eb0ce3606eb48" (loaded None)) =
  {| success := false; data := None; error := Some TypeError |}.
Proof.
  destruct (getTokenMetadataTool_never_succeeds unit usdc_service 1
              "0xa0b86991c6218b36c1d19d4a2e9eb0ce3606eb48" (loaded None))
    as (Hsuccess & Hdata & Herror).
  specialize (Herror _ eq_refl).
  destruct (fst (getTokenMetadataTool unit usdc_service 1
                   "0xa0b86991c6218b36c1d19d4a2e9eb0ce3606eb48" (loaded None)))
    as [s d e].
  simpl in *. by subst.
Defined.

Lemma balance_row_stringify row :
  JSON_stringify (serializeBigInts (TokenBalance_to_any row)) =
  ok (Some (balance_row_json row)).
Proof. reflexivity. Qed.

Lemma balance_rows_stringify rows :
  array_map (λ item : Any,
               let! text := JSON_stringify item in
               ok (match text with Some t => t | None => "null" end))
            (map serializeBigInts (map TokenBalance_to_any rows)) =
  ok (map balance_row_json rows).
Proof.
  induction rows as [|row rows IH]; [done|].
  cbn [map array_map]. rewrite balance_row_stringify, tbind_ok, tbind_ok, IH.
  reflexivity.
Qed.

(** X22.  When [getTokenBalances] returns rows, [getTokenBalancesTool]
    reports success with the JSON array of the rows, each printed as an
    object with the token address and the balance as a decimal string in
    quotes, exact whatever the size of the integer. *)
Theorem getTokenBalancesTool_prints_decimal_strings
    Log get decodeLogs chainId wallet since st rows :
  fst (getTokenBalances Log get decodeLogs chainId wallet since st) = ok rows →
  fst (getTokenBalancesTool Log get decodeLogs chainId wallet since st) =
  {| success := true;
     data := Some ("[" +:+ join_comma (map balance_row_json rows) +:+ "]");
     error := None |}.
Proof.
  intros Hrun. unfold getTokenBalancesTool.
  rewrite (tool_execute_returns _ _ _ _ Hrun).
  cbn [serializeBigInts JSON_stringify fst].
  by rewrite balance_rows_stringify.
Qed.

(** One transfer of 2^70 to the wallet. *)
Lemma getTokenBalancesTool_prints_decimal_strings_witness :
  fst (getTokenBalancesTool unit one_log_service
         (λ _ _, ok [Some (transfer_event "0xA" 1180591620717411303424)])
         1 "0xabcdef0123456789abcdef0123456789abcdef01" None (loaded None)) =
  {| success := true;
     data := Some ("[" +:+ join_comma
                     (map balance_row_json
                        [ {| token := "0xA";
                             balance := 1180591620717411303424 |} ])
                   +:+ "]");
     error := None |}.
Proof.
  apply getTokenBalancesTool_prints_decimal_strings. reflexivity.
Defined.

(** ** The decoding cases of getTokenMetadata *)

Lemma hex_digit_hex_char n :
  (n < 16)%nat → hex_digit (hex_char n) = Some (Z.of_nat n).
Proof.
  intros Hn. do 16 (destruct n as [|n]; [reflexivity|]). lia.
Qed.

Lemma hex_char_not_space n : (n < 16)%nat → is_space (hex_char n) = false.
Proof.
  intros Hn. do 16 (destruct n as [|n]; [reflexivity|]). lia.
Qed.

Lemma hex_fixed_length width : ∀ z, String.length (hex_fixed width z) = width.
Proof. induction width as [|w IH]; intros z; simpl; [done|]. by rewrite IH. Qed.

Lemma hex_fixed_digit w z :
  0 ≤ z < 16 ^ Z.of_nat (S w) →
  (Z.to_nat (z / 16 ^ Z.of_nat w) < 16)%nat
  ∧ Z.of_nat (Z.to_nat (z / 16 ^ Z.of_nat w)) = z / 16 ^ Z.of_nat w
  ∧ 0 ≤ z mod 16 ^ Z.of_nat w < 16 ^ Z.of_nat w.
Proof.
  intros [Hlo Hhi].
  assert (0 < 16 ^ Z.of_nat w) as Hpow by (apply Z.pow_pos_nonneg; lia).
  rewrite Nat2Z.inj_succ, Z.pow_succ_r in Hhi by lia.
  assert (0 ≤ z / 16 ^ Z.of_nat w < 16) as Hd.
  { split; [by apply Z.div_pos|]. apply Z.div_lt_upper_bound; lia. }
  split; [lia|]. split; [lia|]. by apply Z.mod_pos_bound.
Qed.

(** Reading back a fixed-width number: the digits are consumed and the
    value is appended to what was read before. *)
Lemma hex_prefix_fixed width : ∀ z rest acc count,
  0 ≤ z < 16 ^ Z.of_nat width →
  hex_prefix (hex_fixed width z +:+ rest) acc count =
  hex_prefix rest (acc * 16 ^ Z.of_nat width + z) (count + width).
Proof.
  induction width as [|w IH]; intros z rest acc count Hz.
  - simpl in *. rewrite append_nil_l. f_equal; [lia|]. by rewrite Nat.add_0_r.
  - destruct (hex_fixed_digit w z Hz) as (Hd & Hdz & Hr).
    cbn [hex_fixed]. rewrite append_cons_l. cbn [hex_prefix].
    rewrite (hex_digit_hex_char _ Hd), Hdz, (IH _ _ _ _ Hr).
    f_equal; [|lia].
    assert (0 < 16 ^ Z.of_nat w) as Hpow by (apply Z.pow_pos_nonneg; lia).
    rewrite Nat2Z.inj_succ, Z.pow_succ_r by lia.
    pose proof (Z.div_mod z (16 ^ Z.of_nat w)). nia.
Qed.

Lemma hex_fixed_all_hex width : ∀ z,
  0 ≤ z < 16 ^ Z.of_nat width → all_hex (hex_fixed width z) = true.
Proof.
  induction width as [|w IH]; intros z Hz; [done|].
  destruct (hex_fixed_digit w z Hz) as (Hd & _ & Hr).
  cbn [hex_fixed all_hex]. unfold is_hex_digit.
  by rewrite (hex_digit_hex_char _ Hd), (IH _ Hr).
Qed.

Lemma append_nil_r_hex (s : string) : s +:+ "" = s.
Proof.
  induction s as [|c s IH]; [done|]. by rewrite append_cons_l, IH.
Qed.

Lemma hex_prefix_word z :
  0 ≤ z < 2 ^ 256 → hex_prefix (abi_word z) 0 0 = (z, 64%nat).
Proof.
  intros Hz. unfold abi_word.
  rewrite <- (append_nil_r_hex (hex_fixed 64 z)).
  rewrite hex_prefix_fixed by (change (16 ^ Z.of_nat 64) with (2 ^ 256); lia).
  cbn [hex_prefix]. f_equal; lia.
Qed.

Lemma trim_end_hex s : all_hex s = true → trim_end s = s.
Proof.
  induction s as [|c s IH]; [done|]. cbn [all_hex trim_end].
  intros [Hc Hs]%andb_true_iff. rewrite (IH Hs).
  destruct s; [|done].
  assert (is_space c = false) as ->; [|done].
  revert Hc. by destruct c as [[] [] [] [] [] [] [] []].
Qed.

Lemma substring_append_take (a b : string) :
  substring 0 (String.length a) (a +:+ b) = a.
Proof.
  induction a as [|c a IH]; [by destruct b|].
  rewrite append_cons_l. simpl. by rewrite IH.
Qed.

Lemma substring_append_drop (a b : string) m :
  substring (String.length a) m (a +:+ b) = substring 0 m b.
Proof.
  induction a as [|c a IH]; [done|]. rewrite append_cons_l. simpl. apply IH.
Qed.

(** The first [length a] characters of [a] followed by anything. *)
Lemma slice_head (a b : string) :
  slice (a +:+ b) 0 (Z.of_nat (String.length a)) = a.
Proof.
  unfold slice. rewrite length_append.
  replace (Z.ltb (Z.of_nat (String.length a)) 0) with false
    by (symmetry; apply Z.ltb_ge; lia).
  change (Z.ltb 0 0) with false. cbv beta iota.
  replace (Z.min 0 _) with 0 by lia.
  replace (Z.min _ _) with (Z.of_nat (String.length a)) by lia.
  rewrite Z.sub_0_r, Nat2Z.id. apply substring_append_take.
Qed.

(** The part [b] of [a], [b], [c] in a row. *)
Lemma slice_middle (a b c : string) :
  slice (a +:+ (b +:+ c)) (Z.of_nat (String.length a))
    (Z.of_nat (String.length a) + Z.of_nat (String.length b)) = b.
Proof.
  unfold slice. rewrite !length_append.
  replace (Z.ltb (Z.of_nat (String.length a)) 0) with false
    by (symmetry; apply Z.ltb_ge; lia).
  replace (Z.ltb (Z.of_nat (String.length a) + Z.of_nat (String.length b)) 0)
    with false by (symmetry; apply Z.ltb_ge; lia).
  replace (Z.min (Z.of_nat (String.length a)) _)
    with (Z.of_nat (String.length a)) by lia.
  replace (Z.min (_ + _) _)
    with (Z.of_nat (String.length a) + Z.of_nat (String.length b)) by lia.
  replace (_ + _ - _) with (Z.of_nat (String.length b)) by lia.
  rewrite !Nat2Z.id.
  rewrite substring_append_drop. apply substring_append_take.
Qed.

Lemma hex_digit_not_x c :
  is_hex_digit c = true → Ascii.eqb c "x" || Ascii.eqb c "X" = false.
Proof. by destruct c as [[] [] [] [] [] [] [] []]. Qed.

(** [parseInt] on a string that starts with two hex digits: no white
    space, sign or [0x] prefix to skip. *)
Lemma parseInt16_two_digits c1 c2 tail :
  is_hex_digit c1 = true → is_hex_digit c2 = true →
  parseInt16 (String c1 (String c2 tail)) =
  match hex_prefix (String c1 (String c2 tail)) 0 0 with
  | (_, O) => NaN
  | (n, _) => Num n
  end.
Proof.
  intros H1 H2. pose proof (hex_digit_not_x c2 H2) as Hx.
  unfold parseInt16.
  assert (trim_start (String c1 (String c2 tail)) = String c1 (String c2 tail))
    as ->.
  { cbn [trim_start]. revert H1. by destruct c1 as [[] [] [] [] [] [] [] []]. }
  assert (strip_0x (String c1 (String c2 tail)) = String c1 (String c2 tail))
    as Hstrip.
  { unfold strip_0x. rewrite Hx. by destruct c1 as [[] [] [] [] [] [] [] []]. }
  assert (match String c1 (String c2 tail) with
          | String "-" s' => (true, s')
          | String "+" s' => (false, s')
          | _ => (false, String c1 (String c2 tail))
          end = (false, String c1 (String c2 tail))) as ->.
  { revert H1. by destruct c1 as [[] [] [] [] [] [] [] []]. }
  rewrite Hstrip.
  destruct (hex_prefix (String c1 (String c2 tail)) 0 0) as [n [|count]]; done.
Qed.

Lemma parseInt16_word z : 0 ≤ z < 2 ^ 256 → parseInt16 (abi_word z) = Num z.
Proof.
  intros Hz. pose proof (hex_prefix_word z Hz) as Hprefix.
  pose proof (hex_fixed_all_hex 64 z) as Hhex.
  unfold abi_word in *. 
  remember (hex_fixed 64 z) as word eqn:Hword.
  cbn [hex_fixed] in Hword.
  destruct word as [|c1 [|c2 tail]]; try discriminate.
  assert (all_hex (String c1 (String c2 tail)) = true) as Hall
    by (apply Hhex; change (16 ^ Z.of_nat 64) with (2 ^ 256); lia).
  cbn [all_hex] in Hall.
  apply andb_true_iff in Hall as [H1 Hall].
  apply andb_true_iff in Hall as [H2 _].
  rewrite (parseInt16_two_digits c1 c2 tail H1 H2), Hprefix. done.
Qed.

Lemma BigInt_0x_word z : 0 ≤ z < 2 ^ 256 → BigInt_0x (abi_word z) = ok z.
Proof.
  intros Hz. unfold BigInt_0x.
  assert (all_hex (abi_word z) = true) as Hhex
    by (apply hex_fixed_all_hex; change (16 ^ Z.of_nat 64) with (2 ^ 256); lia).
  rewrite (trim_end_hex _ Hhex), Hhex, (hex_prefix_word z Hz).
  unfold abi_word. by cbn [hex_fixed].
Qed.

Lemma Buffer_from_hex_bytes s :
  Buffer_from_hex (hex_of_bytes s) = list_ascii_of_string s.
Proof.
  induction s as [|c s IH]; [done|].
  cbn [hex_of_bytes list_ascii_of_string]. rewrite <- IH.
  by destruct c as [[] [] [] [] [] [] [] []].
Qed.

Lemma hex_of_bytes_length s :
  String.length (hex_of_bytes s) = (2 * String.length s)%nat.
Proof. induction s as [|c s IH]; simpl; [done|]. rewrite IH. lia. Qed.

Lemma append_assoc (a b c : string) : (a +:+ b) +:+ c = a +:+ (b +:+ c).
Proof.
  induction a as [|x a IH]; [done|]. by rewrite !append_cons_l, IH.
Qed.

Lemma decode_string_abi s :
  Z.of_nat (String.length s) < 2 ^ 53 →
  decode_string (abi_string s) = s.
Proof.
  intros Hlen. unfold decode_string, abi_string.
  set (W1 := abi_word 32).
  set (W2 := abi_word (Z.of_nat (String.length s))).
  set (H := hex_of_bytes s).
  set (P := zeros _).
  assert (String.length W1 = 64%nat) as HW1 by apply hex_fixed_length.
  assert (String.length W2 = 64%nat) as HW2 by apply hex_fixed_length.
  assert (slice (W1 +:+ W2 +:+ H +:+ P) 64 128 = W2) as ->.
  { change 64 with (Z.of_nat 64) at 1. rewrite <- HW1 at 1.
    change 128 with (Z.of_nat 64 + Z.of_nat 64).
    rewrite <- HW1 at 1. rewrite <- HW2 at 1. apply slice_middle. }
  assert (parseInt16 W2 = Num (Z.of_nat (String.length s))) as ->
    by (apply parseInt16_word; lia).
  assert (slice (W1 +:+ W2 +:+ H +:+ P) 128
            (128 + Z.of_nat (String.length s) * 2) = H) as ->.
  { rewrite <- (append_assoc W1 W2).
    replace 128 with (Z.of_nat (String.length (W1 +:+ W2)))
      by (rewrite length_append, HW1, HW2; reflexivity).
    replace (Z.of_nat (String.length s) * 2)
      with (Z.of_nat (String.length H))
      by (unfold H; rewrite hex_of_bytes_length; lia).
    apply slice_middle. }
  unfold H, Buffer_toString_utf8.
  rewrite Buffer_from_hex_bytes. apply string_of_list_ascii_of_string.
Qed.

(** X23.  The string case of the switch in [getTokenMetadata] decodes
    the standard encoding of a string return: for every ASCII text, the
    payload made of the offset word, the length word and the padded
    bytes is decoded to the text itself, as name for the field "name"
    and as symbol for the field "symbol". *)
Theorem string_case_decodes_abi_strings s md :
  is_ascii_text s = true →
  Z.of_nat (String.length s) < 2 ^ 53 →
  decode_field (Some "name") (abi_string s) md = ok (set_name s md)
  ∧ decode_field (Some "symbol") (abi_string s) md = ok (set_symbol s md).
Proof.
  intros _ Hlen. unfold decode_field. cbn [String.eqb Ascii.eqb Bool.eqb orb].
  simpl String.eqb. cbv beta iota.
  by rewrite (decode_string_abi s Hlen).
Qed.

(** The name of a wrapped token, longer than one word. *)
Lemma string_case_decodes_abi_strings_witness :
  decode_field (Some "name")
    (abi_string "Wrapped liquid staked Ether 2.0") (default_metadata "0x7f")
  = ok (set_name "Wrapped liquid staked Ether 2.0" (default_metadata "0x7f"))
  ∧ decode_field (Some "symbol")
      (abi_string "Wrapped liquid staked Ether 2.0") (default_metadata "0x7f")
    = ok (set_symbol "Wrapped liquid staked Ether 2.0"
            (default_metadata "0x7f")).
Proof.
  apply string_case_decodes_abi_strings; [reflexivity|].
  vm_compute. reflexivity.
Defined.

(** X24.  The number cases of the switch read a 32-byte word back: the
    field "totalSupply" gets the integer the word encodes, for every
    value below 2^256, and the field "decimals" gets it for every value
    that a JavaScript number holds exactly; what follows the word in the
    payload is ignored. *)
Theorem number_cases_decode_abi_words z rest md :
  0 ≤ z < 2 ^ 256 →
  decode_field (Some "totalSupply") (abi_word z +:+ rest) md =
    ok (set_totalSupply z md)
  ∧ (z < 2 ^ 53 →
     decode_field (Some "decimals") (abi_word z +:+ rest) md =
       ok (set_decimals (Num z) md)).
Proof.
  intros Hz.
  assert (slice (abi_word z +:+ rest) 0 64 = abi_word z) as Hslice.
  { replace 64 with (Z.of_nat (String.length (abi_word z)))
      by (unfold abi_word; by rewrite hex_fixed_length).
    apply slice_head. }
  unfold decode_field. simpl String.eqb. cbv beta iota.
  rewrite Hslice, (BigInt_0x_word z Hz), (parseInt16_word z Hz). done.
Qed.

(** The total supply of a token with 18 decimals and a billion units. *)
Lemma number_cases_decode_abi_words_witness :
  decode_field (Some "totalSupply")
    (abi_word 1000000000000000000000000000 +:+ "") (default_metadata "0x7f") =
  ok (set_totalSupply 1000000000000000000000000000 (default_metadata "0x7f")).
Proof.
  apply (number_cases_decode_abi_words 1000000000000000000000000000 ""
           (default_metadata "0x7f")).
  split; [discriminate|reflexivity].
Defined.

(** A wallet name is rejected by the operation, and the tool says so. *)
Lemma serializing_tools_succeed_with_their_operation_witness :
  fst (getTokenBalancesTool unit one_log_service null_decoder 1 "vitalik.eth"
         None (loaded None)) = tool_failure InvalidArgument.
Proof.
  destruct (serializing_tools_succeed_with_their_operation unit one_log_service
              null_decoder (λ s, s) 1 (loaded None)) as (Hbalances & _).
  destruct (Hbalances "vitalik.eth" None) as (_ & Hfails & _).
  apply Hfails. reflexivity.
Defined.
